(** * Time of Flight: the time-point store and the duration calculator

    A shallow embedding of the time-point logic of the ToF tool:

    - [src/types/index.ts]: the [TimePoint] and [DurationPair] interfaces;
    - [src/App.tsx]: [recordCurrentTime], [addTimePoint], [removeTimePoint],
      the [updateTimePoint] and [resetTimePoints] callbacks and the mode
      toggle; [seekOneFrame], [handlePlayPause], [jumpToTimePoint],
      [getCurrentTime] and [handleKeyDown];
    - [src/components/TimePointManager.tsx]: [calculateDurations],
      [calculateTotalDuration] and [estimatedDuration];
      [handleAddTimePoint], [handleEditPoint] and the conditions and
      lookups of the render;
    - [src/components/VideoPlayer.tsx]: [seekBySeconds].

    [formatTime] is left out: the digits it prints depend on the rounding
    of [seconds / 60] and [(seconds % 1) * 1000].

    Modelling conventions.

    - A JavaScript [number] holding a time is modelled as an exact rational
      ([Q]).  Every finite IEEE double is a rational and the order of finite
      doubles is the order of the rationals they denote, so every statement
      about ordering transfers; [NaN] never reaches the store
      ([HTMLMediaElement.currentTime] is a finite double and the editing
      path reads it through [|| 0]).  Rounding of [-], [+] and [*] is not
      modelled there, and only order, sign and structure are stated of the
      rational model.  Where the value of a result matters (the estimate,
      total * 0.78) the calculator is modelled again on binary64 numbers,
      in [Binary64].
    - [Array.prototype.sort] is stable (ECMAScript 2019) and, for a
      consistent comparator, its result is the unique stable sorted
      rearrangement ([stable_sorted_unique] below); it is modelled by a
      stable insertion sort driven by the sign of the comparator's result.
    - React state is threaded explicitly: every handler takes the current
      value of [timePoints] and returns the value passed to [setTimePoints]
      (the unchanged list when the handler returns without setting it).
      The environment a handler reads ([Date.now()], [videoRef.current]) is
      passed as arguments. *)

From Stdlib Require Import List ZArith QArith Qabs Qminmax String.
From Stdlib Require Import DecimalString DecimalZ DecimalPos.
From Stdlib Require Import Floats Sorted Permutation Lia Lqa Bool Arith.
Import ListNotations.
Local Open Scope string_scope.
Local Open Scope Q_scope.
Local Open Scope list_scope.

Set Implicit Arguments.

(* Decimal literals such as 0.78 denote the nearest binary64 number, as
   they do in JavaScript. *)
Set Warnings "-inexact-float".

(** ** Data model ([src/types/index.ts]) *)

Record TimePoint : Type := mkTimePoint
  { id : string;
    time : Q;
    label : string }.

Record DurationPair : Type := mkDurationPair
  { startId : string;
    endId : string;
    duration : Q }.

(** ** JavaScript helpers *)

Module JS.

(** [n.toString()] for an integer-valued number. *)
Definition toString (n : Z) : string :=
  NilZero.string_of_int (Z.to_int n).

(** [`${n}`] for an array length. *)
Definition natToString (n : nat) : string :=
  NilZero.string_of_uint (Nat.to_uint n).

(** [a || b] on strings: the empty string is the only falsy string. *)
Definition orElse (a b : string) : string :=
  match a with
  | EmptyString => b
  | _ => a
  end.

(** [0 < q], the test a sort performs on a comparator's result. *)
Definition isPositive (q : Q) : bool := (0 <? Qnum q)%Z.

Section Sort.
Variable A : Type.
Variable comparefn : A -> A -> Q.

(** Insert [x], which preceded every element of [l] in the input, into
    the sorted [l]: it moves right only past elements it is strictly
    greater than. *)
Fixpoint insert (x : A) (l : list A) : list A :=
  match l with
  | [] => [x]
  | y :: l' =>
      if isPositive (comparefn x y) then y :: insert x l' else x :: l
  end.

(** [[...l].sort(comparefn)]. *)
Definition sort (l : list A) : list A := fold_right insert [] l.
End Sort.

End JS.

(** The comparator [(a, b) => a.time - b.time] used at every call of [sort]
    in the source. *)
Definition byTime (a b : TimePoint) : Q := time a - time b.

Definition sortByTime (points : list TimePoint) : list TimePoint :=
  JS.sort byTime points.

(** ** The store ([src/App.tsx]) *)

(** The point both [recordCurrentTime] and [addTimePoint] build. *)
Definition newPoint (now : Z) (currentTime : Q) (lbl : string) : TimePoint :=
  {| id := JS.toString now; time := currentTime; label := lbl |}.

(** [recordCurrentTime]: [now] is the value of [Date.now()], [video] the
    [currentTime] of [videoRef.current] ([None] when the ref is null). *)
Definition recordCurrentTime (now : Z) (video : option Q)
    (timePoints : list TimePoint) : list TimePoint :=
  match video with
  | None => timePoints
  | Some currentTime =>
      let p := newPoint now currentTime
                 (JS.natToString (List.length timePoints + 1)) in
      sortByTime (timePoints ++ [p])
  end.

(** [addTimePoint(label)]. *)
Definition addTimePoint (lbl : string) (now : Z) (video : option Q)
    (isAdvancedMode : bool) (timePoints : list TimePoint) : list TimePoint :=
  match video with
  | None => timePoints
  | Some currentTime =>
      let p := newPoint now currentTime
                 (JS.orElse lbl
                    ("Point " ++
                     JS.natToString (List.length timePoints + 1))%string) in
      if negb isAdvancedMode then
        if (List.length timePoints =? 0)%nat then [p]
        else if (List.length timePoints =? 1)%nat then
          sortByTime (timePoints ++ [p])
        else if (List.length timePoints =? 2)%nat then
          match timePoints with
          | beginning :: _ => sortByTime [beginning; p]
          | [] => timePoints
          end
        else timePoints
      else sortByTime (timePoints ++ [p])
  end.

(** [removeTimePoint(id)]. *)
Definition removeTimePoint (i : string) (timePoints : list TimePoint)
    : list TimePoint :=
  filter (fun point => negb (String.eqb (id point) i)) timePoints.

(** [updateTimePoint(id, label, time?)]; [time ?? point.time] keeps the old
    time when no time is passed. *)
Definition updateTimePoint (i : string) (lbl : string) (t : option Q)
    (timePoints : list TimePoint) : list TimePoint :=
  map (fun point =>
         if String.eqb (id point) i
         then {| id := id point;
                 time := match t with Some t' => t' | None => time point end;
                 label := lbl |}
         else point)
      timePoints.

(** [resetTimePoints]. *)
Definition resetTimePoints (timePoints : list TimePoint) : list TimePoint := [].

(** The two pieces of state of [App] the handlers read and write. *)
Record Store : Type := mkStore
  { timePoints : list TimePoint;
    isAdvancedMode : bool }.

(** [useState([])] and [useState(false)]. *)
Definition initial : Store := {| timePoints := []; isAdvancedMode := false |}.

(** The calls the user interface can make on the store. *)
Inductive Call : Type :=
| Record_ (now : Z) (video : option Q)
| Add (lbl : string) (now : Z) (video : option Q)
| Remove (i : string)
| Update (i : string) (lbl : string) (t : option Q)
| Reset
| Toggle.

Definition step (s : Store) (c : Call) : Store :=
  match c with
  | Record_ now video =>
      mkStore (recordCurrentTime now video (timePoints s)) (isAdvancedMode s)
  | Add lbl now video =>
      mkStore (addTimePoint lbl now video (isAdvancedMode s) (timePoints s))
              (isAdvancedMode s)
  | Remove i => mkStore (removeTimePoint i (timePoints s)) (isAdvancedMode s)
  | Update i lbl t =>
      mkStore (updateTimePoint i lbl t (timePoints s)) (isAdvancedMode s)
  | Reset => mkStore (resetTimePoints (timePoints s)) (isAdvancedMode s)
  | Toggle => mkStore (timePoints s) (negb (isAdvancedMode s))
  end.

Definition run (s : Store) (calls : list Call) : Store :=
  fold_left step calls s.

Definition isUpdate (c : Call) : bool :=
  match c with Update _ _ _ => true | _ => false end.

Definition isAdd (c : Call) : bool :=
  match c with Add _ _ _ => true | _ => false end.

(** ** The duration calculator ([src/components/TimePointManager.tsx]) *)

(** The [for] loop of [calculateDurations], started at [i] with the pairs
    pushed so far.  An array read out of range yields [undefined], whose
    [.id] would throw: [None] stands for that [TypeError], and for a loop
    still running when [fuel] iterations have been made. *)
Fixpoint durationsLoop (fuel : nat) (sortedPoints : list TimePoint) (i : nat)
    (durations : list DurationPair) : option (list DurationPair) :=
  if (Z.of_nat i <? Z.of_nat (List.length sortedPoints) - 1)%Z then
    match fuel with
    | O => None
    | S fuel' =>
        if (i + 1 <? List.length sortedPoints)%nat then
          match nth_error sortedPoints i, nth_error sortedPoints (i + 1) with
          | Some startPoint, Some endPoint =>
              durationsLoop fuel' sortedPoints (i + 2)
                (durations ++
                 [ {| startId := id startPoint;
                      endId := id endPoint;
                      duration := time endPoint - time startPoint |} ])
          | _, _ => None
          end
        else durationsLoop fuel' sortedPoints (i + 2) durations
    end
  else Some durations.

(** [calculateDurations()]. *)
Definition calculateDurations (timePoints : list TimePoint)
    : option (list DurationPair) :=
  let sortedPoints := sortByTime timePoints in
  durationsLoop (List.length sortedPoints) sortedPoints 0 [].

(** [calculateTotalDuration()]. *)
Definition calculateTotalDuration (isAdvancedMode : bool)
    (timePoints : list TimePoint) : option Q :=
  if (List.length timePoints <? 2)%nat then Some 0
  else if isAdvancedMode then
    match calculateDurations timePoints with
    | Some durations =>
        Some (fold_left (fun total current => total + duration current)
                durations 0)
    | None => None
    end
  else
    let sortedPoints := sortByTime timePoints in
    match nth_error sortedPoints (List.length sortedPoints - 1),
          nth_error sortedPoints 0 with
    | Some lastPoint, Some firstPoint =>
        Some (time lastPoint - time firstPoint)
    | _, _ => None
    end.

(** [const estimatedDuration = totalDuration * 0.78], before rounding:
    used for the sign and the order of the estimate only; its value is
    computed on binary64 numbers in [Binary64] below. *)
Definition estimatedDuration (totalDuration : Q) : Q := totalDuration * 0.78.

(** ** The duration calculator on binary64 numbers *)

(** The calculator with times as IEEE binary64 numbers, the numbers the
    program computes with: [-], [+] and [*] round, and a decimal literal
    denotes the nearest binary64 number. *)
Module Binary64.

Record TimePoint : Type := mkTimePoint
  { id : string;
    time : float;
    label : string }.

Record DurationPair : Type := mkDurationPair
  { startId : string;
    endId : string;
    duration : float }.

(** [0 < x], the test a sort performs on a comparator's result; it fails
    for [NaN], which a sort treats as [+0]. *)
Definition isPositive (x : float) : bool := PrimFloat.ltb 0 x.

(** [(a, b) => a.time - b.time]. *)
Definition byTime (a b : TimePoint) : float := (time a - time b)%float.

Fixpoint insert (x : TimePoint) (l : list TimePoint) : list TimePoint :=
  match l with
  | [] => [x]
  | y :: l' => if isPositive (byTime x y) then y :: insert x l' else x :: l
  end.

(** [[...points].sort((a, b) => a.time - b.time)]. *)
Definition sortByTime (points : list TimePoint) : list TimePoint :=
  fold_right insert [] points.

(** The [for] loop of [calculateDurations]; [None] stands for a read out of
    range or exhausted [fuel]. *)
Fixpoint durationsLoop (fuel : nat) (sortedPoints : list TimePoint) (i : nat)
    (durations : list DurationPair) : option (list DurationPair) :=
  if (Z.of_nat i <? Z.of_nat (List.length sortedPoints) - 1)%Z then
    match fuel with
    | O => None
    | S fuel' =>
        if (i + 1 <? List.length sortedPoints)%nat then
          match nth_error sortedPoints i, nth_error sortedPoints (i + 1) with
          | Some startPoint, Some endPoint =>
              durationsLoop fuel' sortedPoints (i + 2)
                (durations ++
                 [ {| startId := id startPoint;
                      endId := id endPoint;
                      duration := (time endPoint - time startPoint)%float |} ])
          | _, _ => None
          end
        else durationsLoop fuel' sortedPoints (i + 2) durations
    end
  else Some durations.

(** [calculateDurations()]. *)
Definition calculateDurations (timePoints : list TimePoint)
    : option (list DurationPair) :=
  let sortedPoints := sortByTime timePoints in
  durationsLoop (List.length sortedPoints) sortedPoints 0 [].

(** [calculateTotalDuration()]. *)
Definition calculateTotalDuration (isAdvancedMode : bool)
    (timePoints : list TimePoint) : option float :=
  if (List.length timePoints <? 2)%nat then Some 0%float
  else if isAdvancedMode then
    match calculateDurations timePoints with
    | Some durations =>
        Some (fold_left (fun total current => (total + duration current)%float)
                durations 0%float)
    | None => None
    end
  else
    let sortedPoints := sortByTime timePoints in
    match nth_error sortedPoints (List.length sortedPoints - 1),
          nth_error sortedPoints 0 with
    | Some lastPoint, Some firstPoint =>
        Some (time lastPoint - time firstPoint)%float
    | _, _ => None
    end.

(** [const estimatedDuration = totalDuration * 0.78]. *)
Definition estimatedDuration (totalDuration : float) : float :=
  (totalDuration * 0.78)%float.

(** What the component computes at each render: the estimate of the
    computed total. *)
Definition displayedEstimate (isAdvancedMode : bool)
    (timePoints : list TimePoint) : option float :=
  option_map estimatedDuration
    (calculateTotalDuration isAdvancedMode timePoints).

(** The rational a finite binary64 number denotes. *)
Definition valueOf (x : float) : option Q :=
  match Prim2SF x with
  | S754_zero _ => Some 0
  | S754_finite s m e =>
      Some ((if s then -1 else 1) * inject_Z (Zpos m) * Qpower 2 e)
  | _ => None
  end.

End Binary64.

(** ** Specification-side definitions *)

(** The pairing as the specification words it: consecutive non-overlapping
    pairs of a sequence, a trailing unpaired element dropped. *)
Fixpoint pairUp (points : list TimePoint) : list DurationPair :=
  match points with
  | startPoint :: endPoint :: rest =>
      {| startId := id startPoint;
         endId := id endPoint;
         duration := time endPoint - time startPoint |} :: pairUp rest
  | _ => []
  end.

(** Ascending by time. *)
Definition leTime (a b : TimePoint) : Prop := time a <= time b.

Definition sortedByTime (points : list TimePoint) : Prop :=
  StronglySorted leTime points.

(** The points of a sequence recorded at time [t], in sequence order. *)
Definition atTime (t : Q) (points : list TimePoint) : list TimePoint :=
  filter (fun p => Qeq_bool (time p) t) points.

(** Strictly ascending by time. *)
Definition ltTime (a b : TimePoint) : Prop := time a < time b.

(** The sum of a list of numbers. *)
Definition sumQ (l : list Q) : Q := fold_right Qplus 0 l.

(** A point for the worked examples. *)
Definition examplePoint (i : string) (t : Q) : TimePoint :=
  {| id := i; time := t; label := i |}.

(** [point.id === X], the test of a lookup by id. *)
Definition hasId (X : string) (point : TimePoint) : bool :=
  String.eqb (id point) X.

(** The point [updateTimePoint] puts in place of a point with the id. *)
Definition edited (X newLabel : string) (newTime : option Q)
    (point : TimePoint) : TimePoint :=
  {| id := X;
     time := match newTime with Some t => t | None => time point end;
     label := newLabel |}.

(** The points an [add] builds its result from: all stored points, or only
    the first one when simple mode replaces the second of two. *)
Definition keptByAdd (s : Store) : list TimePoint :=
  if negb (isAdvancedMode s) && (List.length (timePoints s) =? 2)%nat
  then firstn 1 (timePoints s)
  else timePoints s.

(** An [add] in simple mode on a store of 3 or more points is dropped. *)
Definition addDropped (s : Store) : bool :=
  negb (isAdvancedMode s) && (3 <=? List.length (timePoints s))%nat.

(** The stored points in the order in which they were inserted, kept along
    the calls: [record] and [add] insert at the end, an [add] that replaces
    the second of two points retains only the first, a dropped [add]
    inserts nothing, [remove] and [reset] delete. *)
Definition logStep (s : Store) (log : list TimePoint) (c : Call)
    : list TimePoint :=
  match c with
  | Record_ now (Some t) =>
      log ++ [newPoint now t
                (JS.natToString (List.length (timePoints s) + 1))]
  | Add lbl now (Some t) =>
      let p := newPoint now t
                 (JS.orElse lbl
                    ("Point " ++
                     JS.natToString (List.length (timePoints s) + 1))%string)
      in
      if addDropped s then log
      else if negb (isAdvancedMode s)
              && (List.length (timePoints s) =? 2)%nat
           then keptByAdd s ++ [p]
           else log ++ [p]
  | Remove X => removeTimePoint X log
  | Update X lbl t => updateTimePoint X lbl t log
  | Reset => []
  | _ => log
  end.

Fixpoint insertionLog (s : Store) (log : list TimePoint) (calls : list Call)
    : list TimePoint :=
  match calls with
  | [] => log
  | c :: calls' => insertionLog (step s c) (logStep s log c) calls'
  end.

(** Two points recorded at the same time. *)
Definition sameTime (a b : TimePoint) : Prop := time a == time b.

(** Two pairs of the same duration. *)
Definition sameDuration (d d' : DurationPair) : Prop :=
  duration d == duration d'.

(** ** The video element and the seek handlers
     ([src/App.tsx], [src/components/VideoPlayer.tsx]) *)

(** The three properties of [HTMLVideoElement] the handlers read or write.
    [play()] and [pause()] are modelled by their effect on [paused]. *)
Module Video.

Record t : Type := mk
  { currentTime : Q;
    duration : Q;
    paused : bool }.

Definition pause (video : t) : t :=
  {| currentTime := currentTime video;
     duration := duration video;
     paused := true |}.

Definition play (video : t) : t :=
  {| currentTime := currentTime video;
     duration := duration video;
     paused := false |}.

(** [video.currentTime = x]. *)
Definition seek (x : Q) (video : t) : t :=
  {| currentTime := x;
     duration := duration video;
     paused := paused video |}.

End Video.

Inductive Direction : Type := forward | backward.

(** [const frameDuration = 1/60]. *)
Definition frameDuration : Q := 1 / 60.

(** [seekOneFrame(direction)] on [videoRef.current]. *)
Definition seekOneFrame (direction : Direction) (videoRef : option Video.t)
    : option Video.t :=
  match videoRef with
  | None => None
  | Some video =>
      let video := Video.pause video in
      match direction with
      | forward =>
          Some (Video.seek
                  (Qmin (Video.duration video)
                        (Video.currentTime video + frameDuration))
                  video)
      | backward =>
          Some (Video.seek
                  (Qmax 0 (Video.currentTime video - frameDuration))
                  video)
      end
  end.

(** [seekBySeconds(seconds)] of [VideoPlayer]. *)
Definition seekBySeconds (seconds : Q) (videoRef : option Video.t)
    : option Video.t :=
  match videoRef with
  | None => None
  | Some video =>
      let video := Video.pause video in
      Some (Video.seek
              (Qmin (Video.duration video)
                    (Qmax 0 (Video.currentTime video + seconds)))
              video)
  end.

(** [handlePlayPause]. *)
Definition handlePlayPause (videoRef : option Video.t) : option Video.t :=
  match videoRef with
  | None => None
  | Some video =>
      if Video.paused video then Some (Video.play video)
      else Some (Video.pause video)
  end.

(** [jumpToTimePoint(time)]. *)
Definition jumpToTimePoint (t : Q) (videoRef : option Video.t)
    : option Video.t :=
  match videoRef with
  | None => None
  | Some video => Some (Video.seek t video)
  end.

(** [getCurrentTime = () => videoRef.current?.currentTime || 0]: a missing
    element and a zero time both give 0. *)
Definition getCurrentTime (videoRef : option Video.t) : Q :=
  match videoRef with
  | None => 0
  | Some video =>
      if Qeq_bool (Video.currentTime video) 0 then 0
      else Video.currentTime video
  end.

(** ** The component state and its handlers *)

(** The state of [App] and of [TimePointManager] the handlers touch. *)
Record UI : Type := mkUI
  { store : Store;
    videoRef : option Video.t;
    newPointLabel : string;
    editingPointId : option string }.

(** [useState("")], [useState(null)], and no video element before a file is
    chosen. *)
Definition initialUI : UI :=
  {| store := initial;
     videoRef := None;
     newPointLabel := "";
     editingPointId := None |}.

(** Truthiness of [editingPointId : string | null]. *)
Definition isEditing (editingPointId : option string) : option string :=
  match editingPointId with
  | Some EmptyString => None
  | other => other
  end.

(** [videoRef.current.currentTime] as the store handlers read it. *)
Definition videoTime (videoRef : option Video.t) : option Q :=
  option_map Video.currentTime videoRef.

(** [handleAddTimePoint] of [TimePointManager]. *)
Definition handleAddTimePoint (now : Z) (u : UI) : UI :=
  match isEditing (editingPointId u) with
  | Some editing =>
      {| store :=
           step (store u)
             (Update editing (JS.orElse (newPointLabel u) "unlabeled")
                (Some (getCurrentTime (videoRef u))));
         videoRef := videoRef u;
         newPointLabel := "";
         editingPointId := None |}
  | None =>
      let lbl :=
        if (List.length (timePoints (store u)) =? 0)%nat then "Start"
        else if (List.length (timePoints (store u)) =? 19)%nat then "End"
        else newPointLabel u in
      {| store := step (store u) (Add lbl now (videoTime (videoRef u)));
         videoRef := videoRef u;
         newPointLabel := "";
         editingPointId := editingPointId u |}
  end.

(** [handleEditPoint(point)]. *)
Definition handleEditPoint (point : TimePoint) (u : UI) : UI :=
  {| store := store u;
     videoRef := videoRef u;
     newPointLabel := label point;
     editingPointId := Some (id point) |}.

(** The two fields of a [KeyboardEvent] the key handler reads. *)
Record KeyboardEvent : Type := mkKeyboardEvent
  { key : string;
    code : string }.

(** [handleKeyDown(e)]. *)
Definition handleKeyDown (e : KeyboardEvent) (now : Z) (u : UI) : UI :=
  if String.eqb (key e) "ArrowLeft" then
    {| store := store u;
       videoRef := seekOneFrame backward (videoRef u);
       newPointLabel := newPointLabel u;
       editingPointId := editingPointId u |}
  else if String.eqb (key e) "ArrowRight" then
    {| store := store u;
       videoRef := seekOneFrame forward (videoRef u);
       newPointLabel := newPointLabel u;
       editingPointId := editingPointId u |}
  else if String.eqb (key e) " " || String.eqb (code e) "Space" then
    {| store := step (store u) (Record_ now (videoTime (videoRef u)));
       videoRef := videoRef u;
       newPointLabel := newPointLabel u;
       editingPointId := editingPointId u |}
  else u.

(** What the user and the browser can do to the components. *)
Inductive Event : Type :=
| KeyDown (e : KeyboardEvent) (now : Z)
| ClickAdd (now : Z)
| ClickEdit (point : TimePoint)
| ClickCancel
| TypeLabel (text : string)
| ClickRemove (i : string)
| ClickJump (t : Q)
| ClickReset (confirmed : bool)
| ClickMode
| ClickPlayPause
| ClickFrame (direction : Direction)
| ClickSeek (seconds : Q)
| LoadVideo (video : Video.t)
| Playback (t : Q).

Definition withStore (u : UI) (s : Store) : UI :=
  {| store := s;
     videoRef := videoRef u;
     newPointLabel := newPointLabel u;
     editingPointId := editingPointId u |}.

Definition withVideo (u : UI) (v : option Video.t) : UI :=
  {| store := store u;
     videoRef := v;
     newPointLabel := newPointLabel u;
     editingPointId := editingPointId u |}.

Definition uiStep (u : UI) (ev : Event) : UI :=
  match ev with
  | KeyDown e now => handleKeyDown e now u
  | ClickAdd now => handleAddTimePoint now u
  | ClickEdit point => handleEditPoint point u
  | ClickCancel =>
      {| store := store u;
         videoRef := videoRef u;
         newPointLabel := "";
         editingPointId := None |}
  | TypeLabel text =>
      {| store := store u;
         videoRef := videoRef u;
         newPointLabel := text;
         editingPointId := editingPointId u |}
  | ClickRemove i => withStore u (step (store u) (Remove i))
  | ClickJump t => withVideo u (jumpToTimePoint t (videoRef u))
  | ClickReset confirmed =>
      if confirmed then withStore u (step (store u) Reset) else u
  | ClickMode => withStore u (step (store u) Toggle)
  | ClickPlayPause => withVideo u (handlePlayPause (videoRef u))
  | ClickFrame direction => withVideo u (seekOneFrame direction (videoRef u))
  | ClickSeek seconds => withVideo u (seekBySeconds seconds (videoRef u))
  | LoadVideo video => withVideo u (Some video)
  | Playback t => withVideo u (jumpToTimePoint t (videoRef u))
  end.

Definition uiRun (u : UI) (events : list Event) : UI :=
  fold_left uiStep events u.

(** ** What [TimePointManager] renders *)

(** The list of marked points: [[...timePoints].sort(...)]. *)
Definition displayedPoints (timePoints : list TimePoint) : list TimePoint :=
  sortByTime timePoints.

(** The condition under which the calculations panel shows its placeholder
    text instead of durations. *)
Definition showPlaceholder (isAdvancedMode : bool)
    (timePoints : list TimePoint) : option bool :=
  match calculateDurations timePoints with
  | Some durations =>
      Some ((negb isAdvancedMode && (List.length timePoints <? 2)%nat)
            || (isAdvancedMode && (List.length durations =? 0)%nat))
  | None => None
  end.

(** [!isAdvancedMode && totalDuration > 0], the condition for showing the
    estimate. *)
Definition showEstimate (isAdvancedMode : bool)
    (timePoints : list TimePoint) : option bool :=
  match calculateTotalDuration isAdvancedMode timePoints with
  | Some totalDuration =>
      Some (negb isAdvancedMode && JS.isPositive totalDuration)
  | None => None
  end.

(** The labels shown for a pair: [timePoints.find(p => p.id === pair.startId)]
    and the same for [endId], then [?.label]. *)
Definition pairLabels (timePoints : list TimePoint) (pair : DurationPair)
    : option string * option string :=
  (option_map label (find (hasId (startId pair)) timePoints),
   option_map label (find (hasId (endId pair)) timePoints)).

(** ** Definitions used to state properties of the handlers *)

(** The value of [Date.now()] a call stamps a new point with. *)
Definition createdAt (c : Call) : list Z :=
  match c with
  | Record_ now (Some _) => [now]
  | Add _ now (Some _) => [now]
  | _ => []
  end.

(** A label that is not the empty string. *)
Definition nonEmpty (s : string) : Prop := s <> "".

(** The ids in the store are unique and all stamped from the clock values
    in [seen]. *)
Definition idsFrom (seen : list Z) (l : list TimePoint) : Prop :=
  NoDup (map id l) /\
  forall p, In p l -> exists n, In n seen /\ id p = JS.toString n.

(** The playback position lies within the video. *)
Definition inRange (video : Video.t) : Prop :=
  0 <= Video.currentTime video /\
  Video.currentTime video <= Video.duration video.

(** The key events on which [handleKeyDown] records a point: the space bar,
    unless the event's [key] is one of the two arrow keys tested first. *)
Definition isRecordKey (e : KeyboardEvent) : bool :=
  negb (String.eqb (key e) "ArrowLeft")
  && negb (String.eqb (key e) "ArrowRight")
  && (String.eqb (key e) " " || String.eqb (code e) "Space").

(** The events that only move or start and stop the video. *)
Definition isSeekEvent (ev : Event) : bool :=
  match ev with
  | ClickFrame _ | ClickSeek _ | ClickPlayPause => true
  | KeyDown e _ =>
      String.eqb (key e) "ArrowLeft" || String.eqb (key e) "ArrowRight"
  | _ => false
  end.

(** The events that can take a simple-mode store beyond two points: a
    record key, and the mode switch (which lets [add] grow the store). *)
Definition bypassesCapacity (ev : Event) : bool :=
  match ev with
  | KeyDown e _ => isRecordKey e
  | ClickMode => true
  | _ => false
  end.

(** * Proofs *)

(** ** The comparator and the sort *)

Lemma isPositive_byTime (x y : TimePoint) :
  JS.isPositive (byTime x y) = true <-> time y < time x.
Proof.
  unfold JS.isPositive, byTime, Qminus, Qplus, Qopp, Qlt; simpl.
  rewrite Z.ltb_lt. lia.
Qed.

Lemma isPositive_byTime_false (x y : TimePoint) :
  JS.isPositive (byTime x y) = false <-> time x <= time y.
Proof.
  rewrite <- Bool.not_true_iff_false, isPositive_byTime.
  split; [apply Qnot_lt_le | apply Qle_not_lt].
Qed.

Lemma insert_perm (x : TimePoint) (l : list TimePoint) :
  Permutation (JS.insert byTime x l) (x :: l).
Proof.
  induction l as [|y l IH]; simpl; [reflexivity|].
  destruct (JS.isPositive (byTime x y)); [|reflexivity].
  rewrite IH. apply perm_swap.
Qed.

Lemma sortByTime_perm (l : list TimePoint) : Permutation (sortByTime l) l.
Proof.
  induction l as [|x l IH]; simpl; [reflexivity|].
  unfold sortByTime in *; simpl. rewrite insert_perm. now constructor.
Qed.

Lemma sortByTime_length (l : list TimePoint) :
  List.length (sortByTime l) = List.length l.
Proof. apply Permutation_length, sortByTime_perm. Qed.

Lemma insert_sorted (x : TimePoint) (l : list TimePoint) :
  sortedByTime l -> sortedByTime (JS.insert byTime x l).
Proof.
  unfold sortedByTime.
  induction l as [|y l IH]; simpl; intros Hs.
  - repeat constructor.
  - inversion Hs as [|? ? Hl Hy]; subst.
    destruct (JS.isPositive (byTime x y)) eqn:E.
    + apply isPositive_byTime in E.
      constructor; [now apply IH|].
      apply Forall_forall. intros z Hz.
      apply (Permutation_in _ (insert_perm x l)) in Hz.
      destruct Hz as [<-|Hz].
      * unfold leTime. now apply Qlt_le_weak.
      * rewrite Forall_forall in Hy. now apply Hy.
    + apply isPositive_byTime_false in E.
      constructor; [assumption|].
      constructor; [exact E|].
      eapply Forall_impl; [|exact Hy].
      intros z Hz. unfold leTime in *. eapply Qle_trans; eassumption.
Qed.

Lemma sortByTime_sorted (l : list TimePoint) : sortedByTime (sortByTime l).
Proof.
  induction l as [|x l IH]; [constructor|].
  unfold sortByTime in *; simpl. now apply insert_sorted.
Qed.

Lemma insert_atTime (t : Q) (x : TimePoint) (l : list TimePoint) :
  atTime t (JS.insert byTime x l) = atTime t (x :: l).
Proof.
  unfold atTime.
  induction l as [|y l IH]; simpl; [reflexivity|].
  destruct (JS.isPositive (byTime x y)) eqn:E; [|reflexivity].
  apply isPositive_byTime in E. simpl. rewrite IH. simpl.
  destruct (Qeq_bool (time x) t) eqn:Ex; [|reflexivity].
  destruct (Qeq_bool (time y) t) eqn:Ey; [|reflexivity].
  apply Qeq_bool_eq in Ex, Ey. rewrite Ex, Ey in E.
  now apply Qlt_irrefl in E.
Qed.

(** The sort is stable: the points of any one time keep their order. *)
Lemma sortByTime_stable (t : Q) (l : list TimePoint) :
  atTime t (sortByTime l) = atTime t l.
Proof.
  induction l as [|x l IH]; [reflexivity|].
  unfold sortByTime in *; simpl JS.sort. rewrite insert_atTime.
  unfold atTime in *; simpl. now rewrite IH.
Qed.

Lemma insert_le_head (x y : TimePoint) (l : list TimePoint) :
  time x <= time y -> JS.insert byTime x (y :: l) = x :: y :: l.
Proof.
  intros H. simpl. apply isPositive_byTime_false in H. now rewrite H.
Qed.

(** Sorting a sorted sequence changes nothing. *)
Lemma sortByTime_sorted_id (l : list TimePoint) :
  sortedByTime l -> sortByTime l = l.
Proof.
  unfold sortedByTime, sortByTime.
  induction l as [|x l IH]; [reflexivity|]; intros Hs.
  inversion Hs as [|? ? Hl Hx]; subst. simpl. rewrite (IH Hl).
  destruct l as [|y l]; [reflexivity|].
  apply insert_le_head. now inversion Hx.
Qed.

(** Appending a point to a sorted sequence and sorting places the point
    after every point that is not later and before every later point, the
    others keeping their order. *)
Lemma sortByTime_snoc (l : list TimePoint) (p : TimePoint) :
  sortedByTime l ->
  exists l1 l2,
    l = l1 ++ l2 /\
    sortByTime (l ++ [p]) = l1 ++ p :: l2 /\
    Forall (fun q => time q <= time p) l1 /\
    Forall (fun q => time p < time q) l2.
Proof.
  unfold sortedByTime, sortByTime.
  induction l as [|x l IH]; intros Hs.
  - exists [], []. repeat split; constructor.
  - inversion Hs as [|? ? Hl Hx]; subst.
    destruct (IH Hl) as (l1 & l2 & El & Es & H1 & H2).
    simpl. rewrite Es.
    destruct l1 as [|y l1].
    + simpl in *. subst l2.
      destruct (JS.isPositive (byTime x p)) eqn:E.
      * exists [], (x :: l). repeat split; simpl.
        -- f_equal.
           destruct l as [|z l]; [reflexivity|].
           apply insert_le_head. now inversion Hx.
        -- constructor.
        -- constructor; [now apply isPositive_byTime in E | assumption].
      * exists [x], l. repeat split; simpl.
        -- constructor; [now apply isPositive_byTime_false in E | constructor].
        -- assumption.
    + exists (x :: y :: l1), l2. subst l. repeat split.
      * simpl. apply insert_le_head. now inversion Hx.
      * constructor; [|assumption].
        inversion H1; subst. inversion Hx; subst.
        unfold leTime in *. eapply Qle_trans; eassumption.
      * assumption.
Qed.

(** The stable sorted rearrangement is unique: a sorted sequence showing,
    for every time, the same points in the same order as the input is the
    result of [sortByTime], whatever algorithm produced it. *)
Lemma stable_sorted_unique (l l' : list TimePoint) :
  sortedByTime l -> sortedByTime l' ->
  (forall t, atTime t l = atTime t l') -> l = l'.
Proof.
  unfold sortedByTime, atTime.
  revert l'. induction l as [|x l IH]; intros l' Hs Hs' H.
  - destruct l' as [|y l']; [reflexivity|].
    specialize (H (time y)). simpl in H.
    rewrite Qeq_bool_refl in H. discriminate H.
  - destruct l' as [|y l'].
    { specialize (H (time x)). simpl in H.
      rewrite Qeq_bool_refl in H. discriminate H. }
    inversion Hs as [|? ? Hl Hx]; subst.
    inversion Hs' as [|? ? Hl' Hy]; subst.
    assert (E : x = y).
    { pose proof (H (time x)) as H1. pose proof (H (time y)) as H2.
      simpl in H1, H2. rewrite Qeq_bool_refl in H1, H2.
      destruct (Qeq_bool (time y) (time x)) eqn:Eyx;
        [now injection H1|].
      rewrite Qeq_bool_comm, Eyx in H2.
      assert (Ix : In x l').
      { eapply proj1, filter_In. rewrite <- H1. now left. }
      assert (Iy : In y l).
      { eapply proj1, filter_In. rewrite H2. now left. }
      rewrite Forall_forall in Hx, Hy.
      apply Qeq_bool_neq in Eyx. exfalso. apply Eyx.
      apply Qle_antisym; [now apply Hy | now apply Hx]. }
    subst y. f_equal. apply IH; try assumption.
    intros t. specialize (H t). simpl in H.
    destruct (Qeq_bool (time x) t); [now injection H | assumption].
Qed.

Lemma sortByTime_unique (l sorted : list TimePoint) :
  sortedByTime sorted -> (forall t, atTime t sorted = atTime t l) ->
  sorted = sortByTime l.
Proof.
  intros Hs H. apply stable_sorted_unique;
    [assumption | apply sortByTime_sorted |].
  intros t. now rewrite H, sortByTime_stable.
Qed.

(** A strictly sorted sequence is the only sorted rearrangement of itself. *)
Section SortedUnique.
Variable A : Type.
Variables lt le : A -> A -> Prop.
Hypothesis lt_le_absurd : forall x y, lt x y -> le y x -> False.

Lemma strictly_sorted_perm_eq (l l' : list A) :
  StronglySorted lt l -> StronglySorted le l' -> Permutation l l' -> l = l'.
Proof.
  revert l'. induction l as [|x l IH]; intros l' Hl Hl' HP.
  - now apply Permutation_nil in HP.
  - destruct l' as [|y l'].
    + symmetry in HP. now apply Permutation_nil in HP.
    + inversion Hl as [|? ? Hl1 Hx]; subst.
      inversion Hl' as [|? ? Hl1' Hy]; subst.
      assert (E : x = y).
      { assert (Ix : In x (y :: l'))
          by (apply (Permutation_in _ HP); now left).
        assert (Iy : In y (x :: l))
          by (apply (Permutation_in _ (Permutation_sym HP)); now left).
        destruct Ix as [->|Ix]; [reflexivity|].
        destruct Iy as [->|Iy]; [reflexivity|].
        rewrite Forall_forall in Hx, Hy.
        exfalso. eapply lt_le_absurd; [apply Hx | apply Hy]; eassumption. }
      subst y. f_equal. apply IH; try assumption.
      eapply Permutation_cons_inv; eassumption.
Qed.
End SortedUnique.

Lemma sortedByTime_times (l : list TimePoint) :
  sortedByTime l -> StronglySorted Qle (map time l).
Proof.
  unfold sortedByTime. induction 1 as [|x l Hl IH Hx]; simpl; constructor.
  - assumption.
  - apply Forall_map. exact Hx.
Qed.

(** The times of the sorted sequence, when the times are pairwise distinct. *)
Lemma sortByTime_times (l : list TimePoint) (ts : list Q) :
  StronglySorted Qlt ts -> Permutation (map time l) ts ->
  map time (sortByTime l) = ts.
Proof.
  intros Hts HP. symmetry.
  apply (strictly_sorted_perm_eq (lt:=Qlt) (le:=Qle)).
  - intros x y Hlt Hle. exact (Qlt_not_le _ _ Hlt Hle).
  - assumption.
  - apply sortedByTime_times, sortByTime_sorted.
  - rewrite <- HP. apply Permutation_map, Permutation_sym, sortByTime_perm.
Qed.

(** With pairwise distinct times the sorted sequence does not depend on the
    order in which the points were given. *)
Lemma sortByTime_order_irrelevant (l l' : list TimePoint) :
  StronglySorted ltTime (sortByTime l) -> Permutation l l' ->
  sortByTime l' = sortByTime l.
Proof.
  intros Hs HP. symmetry.
  apply (strictly_sorted_perm_eq (lt:=ltTime) (le:=leTime)).
  - intros x y Hlt Hle. exact (Qlt_not_le _ _ Hlt Hle).
  - assumption.
  - apply sortByTime_sorted.
  - rewrite (sortByTime_perm l), HP. apply Permutation_sym, sortByTime_perm.
Qed.

(** ** The sorted times do not depend on the order of the input *)

Ltac order_cases :=
  repeat match goal with
         | |- context [JS.isPositive (byTime ?a ?b)] =>
             let E := fresh "E" in
             destruct (JS.isPositive (byTime a b)) eqn:E;
             [apply isPositive_byTime in E
             |apply isPositive_byTime_false in E];
             simpl
         end.

Lemma sameTime_refl (l : list TimePoint) : Forall2 sameTime l l.
Proof.
  induction l; constructor; [unfold sameTime; reflexivity | assumption].
Qed.

Lemma sameTime_trans (l1 l2 l3 : list TimePoint) :
  Forall2 sameTime l1 l2 -> Forall2 sameTime l2 l3 -> Forall2 sameTime l1 l3.
Proof.
  intros H. revert l3. induction H as [|x y l1 l2 Hxy _ IH]; intros l3 H3.
  - inversion H3. constructor.
  - inversion H3 as [|? z ? l3' Hyz H3']; subst. constructor.
    + unfold sameTime in *. now rewrite Hxy.
    + now apply IH.
Qed.

Lemma insert_sameTime (x : TimePoint) (l l' : list TimePoint) :
  Forall2 sameTime l l' ->
  Forall2 sameTime (JS.insert byTime x l) (JS.insert byTime x l').
Proof.
  induction 1 as [|y y' l l' Hy Hl IH]; simpl.
  - repeat constructor.
  - unfold sameTime in Hy. order_cases;
      try (exfalso; lra);
      repeat (constructor; try (unfold sameTime; lra)); assumption.
Qed.

Lemma insert_insert (x y : TimePoint) (l : list TimePoint) :
  Forall2 sameTime (JS.insert byTime x (JS.insert byTime y l))
                   (JS.insert byTime y (JS.insert byTime x l)).
Proof.
  induction l as [|z l IH]; simpl.
  - order_cases; try (exfalso; lra);
      repeat (constructor; try (unfold sameTime; lra)).
  - order_cases; try (exfalso; lra);
      repeat (constructor; try (unfold sameTime; lra));
      first [exact IH | apply sameTime_refl].
Qed.

(** Whatever the order of the input, the sorted sequence shows the same
    times at the same positions. *)
Lemma sortByTime_perm_sameTime (l l' : list TimePoint) :
  Permutation l l' -> Forall2 sameTime (sortByTime l) (sortByTime l').
Proof.
  unfold sortByTime.
  induction 1 as [|x l l' _ IH|x y l|l1 l2 l3 _ IH1 _ IH2]; simpl.
  - constructor.
  - now apply insert_sameTime.
  - apply insert_insert.
  - eapply sameTime_trans; eassumption.
Qed.

(** ** The pairing loop *)

Lemma skipn_two (l : list TimePoint) (i : nat) :
  (i + 1 < List.length l)%nat ->
  exists s e, nth_error l i = Some s /\ nth_error l (i + 1) = Some e /\
              skipn i l = s :: e :: skipn (i + 2) l.
Proof.
  revert i. induction l as [|x l IH]; intros i Hi; simpl in Hi; [lia|].
  destruct i as [|i].
  - destruct l as [|y l]; simpl in Hi; [lia|].
    exists x, y. repeat split.
  - destruct (IH i) as (s & e & Hs & He & Hk); [lia|].
    exists s, e. simpl. repeat split; assumption.
Qed.

Lemma pairUp_short (l : list TimePoint) :
  (List.length l <= 1)%nat -> pairUp l = [].
Proof.
  destruct l as [|x [|y l]]; simpl; intros H; try reflexivity; lia.
Qed.

(** The loop, given enough iterations, pushes exactly the pairs of the part
    of the sequence from [i] on. *)
Lemma durationsLoop_pairUp (fuel : nat) (l : list TimePoint) (i : nat)
    (acc : list DurationPair) :
  (List.length l <= i + 2 * fuel)%nat ->
  durationsLoop fuel l i acc = Some (acc ++ pairUp (skipn i l)).
Proof.
  revert i acc. induction fuel as [|fuel IH]; intros i acc Hf.
  - simpl. destruct (Z.ltb_spec (Z.of_nat i) (Z.of_nat (List.length l) - 1));
      [lia|].
    rewrite pairUp_short; [now rewrite app_nil_r|].
    rewrite length_skipn. lia.
  - simpl.
    destruct (Z.ltb_spec (Z.of_nat i) (Z.of_nat (List.length l) - 1)) as [H|H].
    + assert (Hi : (i + 1 < List.length l)%nat) by lia.
      destruct (Nat.ltb_spec (i + 1) (List.length l)); [|lia].
      destruct (skipn_two l i Hi) as (s & e & Hs & He & Hk).
      rewrite Hs, He. rewrite IH by lia. rewrite Hk. simpl.
      now rewrite <- app_assoc.
    + rewrite pairUp_short; [now rewrite app_nil_r|].
      rewrite length_skipn. lia.
Qed.

(** [calculateDurations] never throws and returns the pairs of the sorted
    sequence. *)
Lemma calculateDurations_pairUp (timePoints : list TimePoint) :
  calculateDurations timePoints = Some (pairUp (sortByTime timePoints)).
Proof.
  unfold calculateDurations. cbv zeta.
  rewrite durationsLoop_pairUp by lia. reflexivity.
Qed.

Lemma pair_induction (P : list TimePoint -> Prop) :
  P [] -> (forall x, P [x]) -> (forall x y l, P l -> P (x :: y :: l)) ->
  forall l, P l.
Proof.
  intros H0 H1 H2.
  assert (H : forall l, P l /\ forall x, P (x :: l)).
  { induction l as [|y l [IHl IHx]]; split; auto. }
  intros l. apply H.
Qed.

Lemma pairUp_length (l : list TimePoint) :
  List.length (pairUp l) = Nat.div2 (List.length l).
Proof.
  induction l as [| |x y l IH] using pair_induction; simpl; auto.
Qed.

Lemma pairUp_nth (l : list TimePoint) (k : nat) (s e : TimePoint) :
  nth_error l (2 * k) = Some s -> nth_error l (2 * k + 1) = Some e ->
  nth_error (pairUp l) k =
    Some {| startId := id s; endId := id e; duration := time e - time s |}.
Proof.
  revert k. induction l as [| |x y l IH] using pair_induction; intros k Hs He.
  - now destruct k.
  - replace (2 * k + 1)%nat with (S (2 * k)) in He by lia.
    destruct (2 * k)%nat; simpl in He; discriminate He.
  - destruct k as [|k].
    + simpl in Hs, He. now inversion Hs; inversion He; subst.
    + replace (2 * S k)%nat with (S (S (2 * k))) in Hs by lia.
      replace (2 * S k + 1)%nat with (S (S (2 * k + 1))) in He by lia.
      simpl in Hs, He. simpl. now apply IH.
Qed.

Lemma pairUp_sameTime (l l' : list TimePoint) :
  Forall2 sameTime l l' -> Forall2 sameDuration (pairUp l) (pairUp l').
Proof.
  revert l'. induction l as [| |x y l IH] using pair_induction; intros l' H.
  - inversion H. constructor.
  - inversion H as [|? ? ? ? _ H']; subst. inversion H'. constructor.
  - inversion H as [|? x' ? ? Hx H']; subst.
    inversion H' as [|? y' ? ? Hy H'']; subst.
    simpl. constructor; [|now apply IH].
    unfold sameDuration, sameTime in *. simpl. now rewrite Hx, Hy.
Qed.

(** ** Extremes of a sorted sequence and sums *)

Lemma sorted_first_min (l : list TimePoint) (firstPoint : TimePoint) :
  sortedByTime l -> nth_error l 0 = Some firstPoint ->
  forall p, In p l -> time firstPoint <= time p.
Proof.
  intros Hs Hf p Hp. destruct l as [|x l]; [discriminate|].
  simpl in Hf. inversion Hf; subst x.
  inversion Hs as [|? ? _ Hx]; subst.
  destruct Hp as [->|Hp]; [apply Qle_refl|].
  rewrite Forall_forall in Hx. now apply Hx.
Qed.

Lemma sorted_last_max (l : list TimePoint) (lastPoint : TimePoint) :
  sortedByTime l -> nth_error l (List.length l - 1) = Some lastPoint ->
  forall p, In p l -> time p <= time lastPoint.
Proof.
  unfold sortedByTime. intros Hs. revert lastPoint.
  induction Hs as [|x l Hl IH Hx]; intros lastPoint Hn p Hp; [destruct Hp|].
  destruct l as [|y l].
  - simpl in Hn. inversion Hn; subst.
    destruct Hp as [->|[]]. apply Qle_refl.
  - replace (List.length (x :: y :: l) - 1)%nat
      with (S (List.length (y :: l) - 1)) in Hn by (simpl; lia).
    simpl nth_error in Hn.
    destruct Hp as [->|Hp]; [|now apply (IH lastPoint)].
    rewrite Forall_forall in Hx. apply Hx.
    eapply nth_error_In; eassumption.
Qed.

Lemma first_last_exist (l : list TimePoint) :
  (2 <= List.length l)%nat ->
  exists firstPoint lastPoint,
    nth_error l 0 = Some firstPoint /\
    nth_error l (List.length l - 1) = Some lastPoint.
Proof.
  intros H. destruct l as [|x l]; [simpl in H; lia|].
  exists x.
  destruct (nth_error (x :: l) (List.length (x :: l) - 1)) as [y|] eqn:E.
  - now exists y.
  - apply nth_error_None in E. simpl in *. lia.
Qed.

Lemma reduce_sum (durations : list DurationPair) (start : Q) :
  fold_left (fun total current => total + duration current) durations start
  == start + sumQ (map duration durations).
Proof.
  revert start. induction durations as [|d ds IH]; intros start; simpl.
  - ring.
  - rewrite IH. ring.
Qed.

(** ** The duration calculator: pairing *)

(** C1. [calculateDurations] sorts the points ascending by time (a stable
    rearrangement of the input, whatever its order) and returns, without
    failing, the consecutive non-overlapping pairs (0,1), (2,3), ... of the
    sorted sequence, pair [k] holding the ids of the sorted points [2k] and
    [2k+1] and the difference of their times; there are [length / 2] pairs,
    so a trailing unpaired point is dropped.  Every order of the input
    gives the same durations in the same positions, and with pairwise
    distinct times the same pairs.  Points with times
    1, 3, 5, 9 in any order give exactly the pairs 1->3 (duration 2) and
    5->9 (duration 4); points with times 0, 2, 5 in any order give exactly
    the pair 0->2 (duration 2). *)
Theorem calculateDurations_sorted_pairs (timePoints : list TimePoint) :
  (sortedByTime (sortByTime timePoints) /\
   Permutation (sortByTime timePoints) timePoints /\
   forall t, atTime t (sortByTime timePoints) = atTime t timePoints) /\
  calculateDurations timePoints = Some (pairUp (sortByTime timePoints)) /\
  List.length (pairUp (sortByTime timePoints)) =
    Nat.div2 (List.length timePoints) /\
  (forall k startPoint endPoint,
      nth_error (sortByTime timePoints) (2 * k) = Some startPoint ->
      nth_error (sortByTime timePoints) (2 * k + 1) = Some endPoint ->
      nth_error (pairUp (sortByTime timePoints)) k =
        Some {| startId := id startPoint;
                endId := id endPoint;
                duration := time endPoint - time startPoint |}) /\
  (forall reordered,
      Permutation timePoints reordered ->
      (exists pairs,
          calculateDurations reordered = Some pairs /\
          Forall2 sameDuration (pairUp (sortByTime timePoints)) pairs) /\
      (StronglySorted ltTime (sortByTime timePoints) ->
       calculateDurations reordered = calculateDurations timePoints)) /\
  (Permutation (map time timePoints) [1; 3; 5; 9] ->
   exists a b c d,
     (sortByTime timePoints) = [a; b; c; d] /\
     map time (sortByTime timePoints) = [1; 3; 5; 9] /\
     calculateDurations timePoints =
       Some [ {| startId := id a; endId := id b; duration := 2 |};
              {| startId := id c; endId := id d; duration := 4 |} ]) /\
  (Permutation (map time timePoints) [0; 2; 5] ->
   exists a b c,
     (sortByTime timePoints) = [a; b; c] /\
     map time (sortByTime timePoints) = [0; 2; 5] /\
     calculateDurations timePoints =
       Some [ {| startId := id a; endId := id b; duration := 2 |} ]).
Proof.
  split; [|split; [|split; [|split; [|split; [|split]]]]].
  - split; [apply sortByTime_sorted|].
    split; [apply sortByTime_perm|].
    intros t. apply sortByTime_stable.
  - apply calculateDurations_pairUp.
  - now rewrite pairUp_length, sortByTime_length.
  - intros k s e. apply pairUp_nth.
  - intros reordered HP. split.
    + exists (pairUp (sortByTime reordered)).
      split; [apply calculateDurations_pairUp|].
      now apply pairUp_sameTime, sortByTime_perm_sameTime.
    + intros Hs. rewrite !calculateDurations_pairUp.
      now rewrite (sortByTime_order_irrelevant Hs HP).
  - intros HP.
    assert (Ht : map time (sortByTime timePoints) = [1; 3; 5; 9]).
    { apply sortByTime_times; [|assumption].
      repeat constructor; reflexivity. }
    rewrite calculateDurations_pairUp.
    destruct (sortByTime timePoints) as [|a [|b [|c [|d [|? ?]]]]];
      try discriminate Ht.
    exists a, b, c, d. split; [reflexivity|]. split; [assumption|].
    simpl in Ht. injection Ht as Ha Hb Hc Hd.
    simpl. rewrite Ha, Hb, Hc, Hd. reflexivity.
  - intros HP.
    assert (Ht : map time (sortByTime timePoints) = [0; 2; 5]).
    { apply sortByTime_times; [|assumption].
      repeat constructor; reflexivity. }
    rewrite calculateDurations_pairUp.
    destruct (sortByTime timePoints) as [|a [|b [|c [|? ?]]]];
      try discriminate Ht.
    exists a, b, c. split; [reflexivity|]. split; [assumption|].
    simpl in Ht. injection Ht as Ha Hb Hc.
    simpl. rewrite Ha, Hb. reflexivity.
Qed.

Lemma calculateDurations_sorted_pairs_witness :
  calculateDurations
    [examplePoint "d" 9; examplePoint "c" 5;
     examplePoint "b" 3; examplePoint "a" 1] =
    Some [ {| startId := "a"; endId := "b"; duration := 2 |};
           {| startId := "c"; endId := "d"; duration := 4 |} ] /\
  calculateDurations
    [examplePoint "z" 5; examplePoint "y" 2; examplePoint "x" 0] =
    Some [ {| startId := "x"; endId := "y"; duration := 2 |} ].
Proof.
  split.
  - destruct (calculateDurations_sorted_pairs
                [examplePoint "d" 9; examplePoint "c" 5;
                 examplePoint "b" 3; examplePoint "a" 1])
      as (_ & _ & _ & _ & _ & H & _).
    destruct H as (a & b & c & d & Hs & _ & Hc).
    + apply Permutation_sym, (Permutation_rev [1; 3; 5; 9]).
    + vm_compute in Hs. injection Hs as <- <- <- <-. exact Hc.
  - destruct (calculateDurations_sorted_pairs
                [examplePoint "z" 5; examplePoint "y" 2; examplePoint "x" 0])
      as (_ & _ & _ & _ & _ & _ & H).
    destruct H as (a & b & c & Hs & _ & Hc).
    + apply Permutation_sym, (Permutation_rev [0; 2; 5]).
    + vm_compute in Hs. injection Hs as <- <- <-. exact Hc.
Defined.

(** ** The duration calculator: totals *)

(** C2. [calculateTotalDuration] never fails.  In advanced mode it is the
    sum of the durations of the pairs [calculateDurations] returns, so
    points with times 0, 2, 5, 9 give 6.  In simple mode with at least two
    points it is the time of the last point of the sorted sequence minus the
    time of its first point, which are a latest and an earliest point of
    the whole sequence.  With fewer than two points it is 0 in either
    mode. *)
Theorem calculateTotalDuration_spec (timePoints : list TimePoint) :
  (exists durations total,
      calculateDurations timePoints = Some durations /\
      calculateTotalDuration true timePoints = Some total /\
      total == sumQ (map duration durations)) /\
  (Permutation (map time timePoints) [0; 2; 5; 9] ->
   calculateTotalDuration true timePoints = Some 6) /\
  ((2 <= List.length timePoints)%nat ->
   exists firstPoint lastPoint,
     nth_error (sortByTime timePoints) 0 = Some firstPoint /\
     nth_error (sortByTime timePoints) (List.length timePoints - 1)
       = Some lastPoint /\
     In firstPoint timePoints /\ In lastPoint timePoints /\
     (forall p, In p timePoints ->
                time firstPoint <= time p /\ time p <= time lastPoint) /\
     calculateTotalDuration false timePoints
       = Some (time lastPoint - time firstPoint)) /\
  ((List.length timePoints < 2)%nat ->
   forall isAdvancedMode,
     calculateTotalDuration isAdvancedMode timePoints = Some 0).
Proof.
  split; [|split; [|split]].
  - exists (pairUp (sortByTime timePoints)).
    unfold calculateTotalDuration.
    rewrite calculateDurations_pairUp.
    destruct (Nat.ltb_spec (List.length timePoints) 2) as [H|H].
    + exists 0. repeat split.
      rewrite pairUp_short; [reflexivity|].
      rewrite sortByTime_length. lia.
    + eexists. repeat split. rewrite reduce_sum. ring.
  - intros HP.
    assert (Ht : map time (sortByTime timePoints) = [0; 2; 5; 9]).
    { apply sortByTime_times; [|assumption].
      repeat constructor; reflexivity. }
    assert (Hl : List.length timePoints = 4%nat).
    { rewrite <- (length_map time), (Permutation_length HP). reflexivity. }
    unfold calculateTotalDuration.
    rewrite Hl, calculateDurations_pairUp. simpl Nat.ltb. cbv iota.
    destruct (sortByTime timePoints) as [|a [|b [|c [|d [|? ?]]]]];
      try discriminate Ht.
    simpl in Ht. injection Ht as Ha Hb Hc Hd.
    simpl. rewrite Ha, Hb, Hc, Hd. reflexivity.
  - intros H2.
    destruct (first_last_exist (sortByTime timePoints))
      as (firstPoint & lastPoint & Hf & Hl);
      [now rewrite sortByTime_length|].
    pose proof (sortByTime_perm timePoints) as HP.
    exists firstPoint, lastPoint.
    assert (Hl' := Hl). rewrite sortByTime_length in Hl'.
    repeat split; try assumption.
    + apply (Permutation_in _ HP). eapply nth_error_In; eassumption.
    + apply (Permutation_in _ HP). eapply nth_error_In; eassumption.
    + apply (sorted_first_min (sortByTime_sorted timePoints) Hf).
      now apply (Permutation_in _ (Permutation_sym HP)).
    + apply (sorted_last_max (sortByTime_sorted timePoints) Hl).
      now apply (Permutation_in _ (Permutation_sym HP)).
    + unfold calculateTotalDuration.
      destruct (Nat.ltb_spec (List.length timePoints) 2); [lia|].
      simpl negb. cbv zeta. now rewrite Hl, Hf.
  - intros H isAdvancedMode. unfold calculateTotalDuration.
    destruct (Nat.ltb_spec (List.length timePoints) 2); [reflexivity|lia].
Qed.

Lemma calculateTotalDuration_spec_witness :
  calculateTotalDuration true
    [examplePoint "d" 9; examplePoint "c" 5;
     examplePoint "b" 2; examplePoint "a" 0] = Some 6 /\
  (exists firstPoint lastPoint,
      time firstPoint = 0 /\ time lastPoint = 9 /\
      calculateTotalDuration false
        [examplePoint "d" 9; examplePoint "c" 5;
         examplePoint "b" 2; examplePoint "a" 0]
        = Some (time lastPoint - time firstPoint)) /\
  calculateTotalDuration false [examplePoint "a" 4] = Some 0.
Proof.
  split; [|split].
  - apply (calculateTotalDuration_spec
             [examplePoint "d" 9; examplePoint "c" 5;
              examplePoint "b" 2; examplePoint "a" 0]).
    apply Permutation_sym, (Permutation_rev [0; 2; 5; 9]).
  - destruct (calculateTotalDuration_spec
                [examplePoint "d" 9; examplePoint "c" 5;
                 examplePoint "b" 2; examplePoint "a" 0])
      as (_ & _ & H & _).
    destruct H as (f & l & Hf & Hl & _ & _ & _ & Ht); [simpl; lia|].
    vm_compute in Hf, Hl. injection Hf as <-. injection Hl as <-.
    exists (examplePoint "a" 0), (examplePoint "d" 9).
    split; [reflexivity|]. split; [reflexivity|]. exact Ht.
  - apply (calculateTotalDuration_spec [examplePoint "a" 4]). simpl. lia.
Defined.

(** ** The duration calculator: the estimate *)

Lemma insert64_length (x : Binary64.TimePoint)
    (l : list Binary64.TimePoint) :
  List.length (Binary64.insert x l) = S (List.length l).
Proof.
  induction l as [|y l IH]; simpl; [reflexivity|].
  destruct (Binary64.isPositive (Binary64.byTime x y)); simpl;
    [now rewrite IH | reflexivity].
Qed.

Lemma sortByTime64_length (l : list Binary64.TimePoint) :
  List.length (Binary64.sortByTime l) = List.length l.
Proof.
  induction l as [|x l IH]; [reflexivity|].
  unfold Binary64.sortByTime in *. simpl.
  now rewrite insert64_length, IH.
Qed.

(** With enough iterations the loop returns. *)
Lemma durationsLoop64_returns (fuel : nat) (l : list Binary64.TimePoint)
    (i : nat) (acc : list Binary64.DurationPair) :
  (List.length l <= i + 2 * fuel)%nat ->
  exists durations, Binary64.durationsLoop fuel l i acc = Some durations.
Proof.
  revert i acc. induction fuel as [|fuel IH]; intros i acc Hf; simpl.
  - destruct (Z.ltb_spec (Z.of_nat i) (Z.of_nat (List.length l) - 1));
      [lia|]. now exists acc.
  - destruct (Z.ltb_spec (Z.of_nat i) (Z.of_nat (List.length l) - 1));
      [|now exists acc].
    destruct (Nat.ltb_spec (i + 1) (List.length l)); [|lia].
    destruct (nth_error l i) as [s|] eqn:Es;
      [|apply nth_error_None in Es; lia].
    destruct (nth_error l (i + 1)) as [e|] eqn:Ee;
      [|apply nth_error_None in Ee; lia].
    apply IH. lia.
Qed.

Lemma first_last_exist64 (l : list Binary64.TimePoint) :
  (2 <= List.length l)%nat ->
  exists firstPoint lastPoint,
    nth_error l 0 = Some firstPoint /\
    nth_error l (List.length l - 1) = Some lastPoint.
Proof.
  intros H. destruct l as [|x l]; [simpl in H; lia|].
  exists x.
  destruct (nth_error (x :: l) (List.length (x :: l) - 1)) as [y|] eqn:E.
  - now exists y.
  - apply nth_error_None in E. simpl in *. lia.
Qed.

Lemma calculateTotalDuration64_simple (l : list Binary64.TimePoint) :
  (2 <= List.length l)%nat ->
  exists firstPoint lastPoint,
    nth_error (Binary64.sortByTime l) 0 = Some firstPoint /\
    nth_error (Binary64.sortByTime l) (List.length l - 1)
      = Some lastPoint /\
    Binary64.calculateTotalDuration false l =
      Some (Binary64.time lastPoint - Binary64.time firstPoint)%float.
Proof.
  intros H2.
  destruct (first_last_exist64 (Binary64.sortByTime l))
    as (firstPoint & lastPoint & Hf & Hl);
    [now rewrite sortByTime64_length|].
  exists firstPoint, lastPoint.
  assert (Hl' := Hl). rewrite sortByTime64_length in Hl'.
  split; [assumption|]. split; [assumption|].
  unfold Binary64.calculateTotalDuration.
  destruct (Nat.ltb_spec (List.length l) 2); [lia|].
  cbv zeta. now rewrite Hl, Hf.
Qed.

(** [calculateTotalDuration] never fails, in either mode. *)
Lemma calculateTotalDuration64_returns (isAdvancedMode : bool)
    (l : list Binary64.TimePoint) :
  exists total, Binary64.calculateTotalDuration isAdvancedMode l = Some total.
Proof.
  destruct (Nat.ltb_spec (List.length l) 2) as [H|H].
  - exists 0%float. unfold Binary64.calculateTotalDuration.
    now destruct (Nat.ltb_spec (List.length l) 2); [|lia].
  - destruct isAdvancedMode.
    + unfold Binary64.calculateTotalDuration, Binary64.calculateDurations.
      destruct (Nat.ltb_spec (List.length l) 2); [lia|]. cbv zeta.
      destruct (durationsLoop64_returns
                  (List.length (Binary64.sortByTime l))
                  (Binary64.sortByTime l) 0 [])
        as (durations & E); [lia|].
      rewrite E. eexists. reflexivity.
    + destruct (calculateTotalDuration64_simple l H) as (f & x & _ & _ & E).
      eexists. exact E.
Qed.

(** C5. On binary64 numbers, as the program computes: the estimate is the
    total duration multiplied (and rounded) by the binary64 number 0.78,
    for every stored sequence and in either mode, and nothing fails; in
    simple mode with at least two points the total is the time of the last
    point of the sorted sequence minus the time of its first point.  For
    two points with times 0 and 9, in either order, the simple-mode total
    is exactly 9 and the estimate is the binary64 number
    7.0200000000000005, which is not 7.02 but lies within 1e-9 of it:
    both as a program would test it, and as an exact rational. *)
Theorem estimatedDuration_binary64 (timePoints : list Binary64.TimePoint) :
  (forall isAdvancedMode,
      exists total,
        Binary64.calculateTotalDuration isAdvancedMode timePoints
          = Some total /\
        Binary64.displayedEstimate isAdvancedMode timePoints
          = Some (total * 0.78)%float) /\
  ((2 <= List.length timePoints)%nat ->
   exists firstPoint lastPoint,
     nth_error (Binary64.sortByTime timePoints) 0 = Some firstPoint /\
     nth_error (Binary64.sortByTime timePoints)
       (List.length timePoints - 1) = Some lastPoint /\
     Binary64.calculateTotalDuration false timePoints =
       Some (Binary64.time lastPoint - Binary64.time firstPoint)%float /\
     Binary64.displayedEstimate false timePoints =
       Some ((Binary64.time lastPoint - Binary64.time firstPoint) * 0.78)%float)
  /\
  (map Binary64.time timePoints = [0; 9]%float \/
   map Binary64.time timePoints = [9; 0]%float ->
   Binary64.calculateTotalDuration false timePoints = Some 9%float /\
   exists estimate exact,
     Binary64.displayedEstimate false timePoints = Some estimate /\
     estimate = 7.0200000000000005%float /\
     PrimFloat.eqb estimate 7.02 = false /\
     PrimFloat.leb (PrimFloat.abs (estimate - 7.02)) 1e-9 = true /\
     Binary64.valueOf estimate = Some exact /\
     7.02 < exact /\
     Qabs (exact - 7.02) <= 1 # 1000000000).
Proof.
  split; [|split].
  - intros isAdvancedMode.
    destruct (calculateTotalDuration64_returns isAdvancedMode timePoints)
      as (total & E).
    exists total. split; [exact E|].
    unfold Binary64.displayedEstimate. now rewrite E.
  - intros H2.
    destruct (calculateTotalDuration64_simple timePoints H2)
      as (f & l & Hf & Hl & E).
    exists f, l. repeat split; try assumption.
    unfold Binary64.displayedEstimate. now rewrite E.
  - intros Ht.
    destruct timePoints as [|[ia ta la] [|[ib tb lb] [|? ?]]];
      try (destruct Ht as [Ht|Ht]; discriminate Ht).
    assert (Hc : (ta = 0 /\ tb = 9)%float \/ (ta = 9 /\ tb = 0)%float).
    { destruct Ht as [Ht|Ht]; simpl in Ht; injection Ht as -> ->; auto. }
    destruct Hc as [[-> ->]|[-> ->]].
    + split; [vm_compute; reflexivity|].
      exists 7.0200000000000005%float.
      eexists.
      split; [vm_compute; reflexivity|]. split; [reflexivity|].
      split; [vm_compute; reflexivity|].
      split; [vm_compute; reflexivity|].
      split; [vm_compute; reflexivity|].
      split; [vm_compute; reflexivity | vm_compute; discriminate].
    + split; [vm_compute; reflexivity|].
      exists 7.0200000000000005%float.
      eexists.
      split; [vm_compute; reflexivity|]. split; [reflexivity|].
      split; [vm_compute; reflexivity|].
      split; [vm_compute; reflexivity|].
      split; [vm_compute; reflexivity|].
      split; [vm_compute; reflexivity | vm_compute; discriminate].
Qed.

Lemma estimatedDuration_binary64_witness :
  Binary64.displayedEstimate false
    [ {| Binary64.id := "2000"; Binary64.time := 9; Binary64.label := "End" |};
      {| Binary64.id := "1000"; Binary64.time := 0;
         Binary64.label := "Start" |} ]
    = Some 7.0200000000000005%float /\
  Binary64.displayedEstimate false
    [ {| Binary64.id := "b"; Binary64.time := 7.5; Binary64.label := "b" |};
      {| Binary64.id := "a"; Binary64.time := 5.25; Binary64.label := "a" |};
      {| Binary64.id := "c"; Binary64.time := 11; Binary64.label := "c" |} ]
    = Some ((11 - 5.25) * 0.78)%float.
Proof.
  split.
  - destruct (estimatedDuration_binary64
                [ {| Binary64.id := "2000"; Binary64.time := 9;
                     Binary64.label := "End" |};
                  {| Binary64.id := "1000"; Binary64.time := 0;
                     Binary64.label := "Start" |} ])
      as (_ & _ & H).
    destruct H as (_ & estimate & exact & He & -> & _);
      [right; reflexivity|].
    exact He.
  - destruct (estimatedDuration_binary64
                [ {| Binary64.id := "b"; Binary64.time := 7.5;
                     Binary64.label := "b" |};
                  {| Binary64.id := "a"; Binary64.time := 5.25;
                     Binary64.label := "a" |};
                  {| Binary64.id := "c"; Binary64.time := 11;
                     Binary64.label := "c" |} ])
      as (_ & H & _).
    destruct H as (f & l & Hf & Hl & _ & He); [simpl; lia|].
    vm_compute in Hf, Hl. injection Hf as <-. injection Hl as <-.
    exact He.
Defined.

(** ** The store: capacity in simple mode *)

Lemma addTimePoint_simple_length (lbl : string) (now : Z) (video : option Q)
    (timePoints : list TimePoint) :
  (List.length timePoints <= 2)%nat ->
  (List.length (addTimePoint lbl now video false timePoints) <= 2)%nat.
Proof.
  intros H. unfold addTimePoint. destruct video as [t|]; [|assumption].
  destruct timePoints as [|a [|b [|c l]]]; simpl in *; try lia.
  - destruct (JS.isPositive _); simpl; lia.
  - destruct (JS.isPositive _); simpl; lia.
Qed.

Lemma run_adds_simple (calls : list Call) (s : Store) :
  isAdvancedMode s = false ->
  (List.length (timePoints s) <= 2)%nat ->
  forallb isAdd calls = true ->
  isAdvancedMode (run s calls) = false /\
  (List.length (timePoints (run s calls)) <= 2)%nat.
Proof.
  revert s. induction calls as [|c calls IH]; intros s Hm Hl Ha.
  - now split.
  - simpl in Ha. apply andb_true_iff in Ha as [Hc Ha].
    destruct c; try discriminate Hc.
    simpl. apply IH; simpl; try assumption.
    rewrite Hm. now apply addTimePoint_simple_length.
Qed.

(** C3. From the empty store in simple mode, any sequence of [add] calls
    leaves at most 2 points in the store.  An [add] on the empty store
    makes the new point the only element; on a store of one point it
    appends the new point and sorts; on a store of two points it sorts the
    first stored point with the new point, so that the second stored point
    is replaced and the store still holds 2 points. *)
Theorem simple_mode_capacity (calls : list Call) :
  forallb isAdd calls = true ->
  (List.length (timePoints (run initial calls)) <= 2)%nat /\
  (forall lbl now t,
      addTimePoint lbl now (Some t) false [] =
        [newPoint now t (JS.orElse lbl "Point 1")]) /\
  (forall lbl now t a,
      addTimePoint lbl now (Some t) false [a] =
        sortByTime ([a] ++ [newPoint now t (JS.orElse lbl "Point 2")])) /\
  (forall lbl now t a b,
      addTimePoint lbl now (Some t) false [a; b] =
        sortByTime [a; newPoint now t (JS.orElse lbl "Point 3")] /\
      List.length (addTimePoint lbl now (Some t) false [a; b]) = 2%nat).
Proof.
  intros Ha. split; [|split; [|split]].
  - apply (run_adds_simple calls initial);
      [reflexivity | simpl; lia | exact Ha].
  - reflexivity.
  - reflexivity.
  - intros lbl now t a b. split; [reflexivity|].
    unfold addTimePoint. simpl Nat.eqb. cbv iota. simpl negb. cbv iota zeta.
    now rewrite sortByTime_length.
Qed.

Lemma simple_mode_capacity_witness :
  Nat.le
    (List.length
       (timePoints
          (run initial [Add "Start" 1000 (Some 1); Add "" 2000 (Some 5);
                        Add "" 3000 (Some 3); Add "" 4000 (Some 0)])))
    2.
Proof.
  apply (simple_mode_capacity
           [Add "Start" 1000 (Some 1); Add "" 2000 (Some 5);
            Add "" 3000 (Some 3); Add "" 4000 (Some 0)]).
  reflexivity.
Defined.

(** C10. In simple mode an [add] on a store of 3 or more points changes
    nothing: the new point is dropped and no stored point is replaced.
    Such stores arise in simple mode: [record] adds a point whatever the
    mode and the count, and the mode toggle leaves the points alone. *)
Theorem add_simple_beyond_capacity (s : Store) (lbl : string) (now : Z)
    (video : option Q) :
  isAdvancedMode s = false ->
  (3 <= List.length (timePoints s))%nat ->
  step s (Add lbl now video) = s /\
  (forall now' t,
      List.length (timePoints (step s (Record_ now' (Some t)))) =
        S (List.length (timePoints s)) /\
      isAdvancedMode (step s (Record_ now' (Some t))) = false) /\
  (forall s', timePoints (step s' Toggle) = timePoints s').
Proof.
  intros Hm Hl. split; [|split].
  - destruct s as [pts mode]. simpl in *. subst mode. f_equal.
    unfold addTimePoint. destruct video as [t|]; [|reflexivity].
    destruct pts as [|a [|b [|c l]]]; simpl in Hl; try lia. reflexivity.
  - intros now' t. split; [|assumption].
    simpl. unfold recordCurrentTime.
    rewrite sortByTime_length, length_app. simpl. lia.
  - reflexivity.
Qed.

Lemma add_simple_beyond_capacity_witness :
  let s := run initial [Record_ 1000 (Some 4); Record_ 2000 (Some 2);
                        Record_ 3000 (Some 6)] in
  List.length (timePoints s) = 3%nat /\
  step s (Add "End" 4000 (Some 8)) = s.
Proof.
  split; [reflexivity|].
  apply add_simple_beyond_capacity; [reflexivity | simpl; lia].
Defined.

(** ** The store: update and remove *)

Lemma updateTimePoint_nth (X newLabel : string) (newTime : option Q)
    (timePoints : list TimePoint) (n : nat) (point : TimePoint) :
  nth_error timePoints n = Some point ->
  nth_error (updateTimePoint X newLabel newTime timePoints) n =
    Some (if hasId X point then edited X newLabel newTime point else point).
Proof.
  intros H. unfold updateTimePoint. rewrite nth_error_map, H. simpl.
  unfold hasId, edited.
  destruct (String.eqb_spec (id point) X) as [->|]; reflexivity.
Qed.

Lemma updateTimePoint_find (X newLabel : string) (newTime : option Q)
    (timePoints : list TimePoint) (point : TimePoint) :
  find (hasId X) timePoints = Some point ->
  find (hasId X) (updateTimePoint X newLabel newTime timePoints) =
    Some (edited X newLabel newTime point).
Proof.
  unfold updateTimePoint, hasId, edited.
  induction timePoints as [|p l IH]; simpl; [discriminate|].
  destruct (String.eqb_spec (id p) X) as [E|E]; simpl.
  - intros [= <-]. rewrite E, String.eqb_refl. reflexivity.
  - destruct (String.eqb_spec (id p) X); [contradiction|]. exact IH.
Qed.

(** C7. [updateTimePoint(X, newLabel, newTime)] keeps every point at its
    position: a point with id [X] gets the label [newLabel] and the time
    [newTime], or keeps its time when no time is passed, and every other
    point is unchanged; the sequence is not re-sorted (the ids stay in
    the same order).  When the store
    contains a point with id [X], looking [X] up afterwards returns a point
    with exactly that label and time. *)
Theorem updateTimePoint_spec (timePoints : list TimePoint)
    (X newLabel : string) (newTime : option Q) :
  (forall n point,
      nth_error timePoints n = Some point ->
      nth_error (updateTimePoint X newLabel newTime timePoints) n =
        Some (if hasId X point
              then {| id := X;
                      time := match newTime with
                              | Some t => t
                              | None => time point
                              end;
                      label := newLabel |}
              else point)) /\
  List.length (updateTimePoint X newLabel newTime timePoints) =
    List.length timePoints /\
  map id (updateTimePoint X newLabel newTime timePoints) =
    map id timePoints /\
  ((exists point, In point timePoints /\ id point = X) ->
   exists before after,
     find (hasId X) timePoints = Some before /\
     find (hasId X) (updateTimePoint X newLabel newTime timePoints)
       = Some after /\
     id after = X /\
     label after = newLabel /\
     time after = match newTime with
                  | Some t => t
                  | None => time before
                  end).
Proof.
  split; [|split; [|split]].
  - intros n point. apply updateTimePoint_nth.
  - unfold updateTimePoint. apply length_map.
  - unfold updateTimePoint. rewrite map_map. apply map_ext.
    intros point. simpl.
    destruct (String.eqb_spec (id point) X) as [->|]; reflexivity.
  - intros (point & Hin & Hid).
    destruct (find (hasId X) timePoints) as [before|] eqn:E.
    + exists before, (edited X newLabel newTime before).
      split; [reflexivity|].
      split; [now apply updateTimePoint_find|].
      repeat split.
    + exfalso. apply (find_none _ _ E) in Hin.
      unfold hasId in Hin. rewrite Hid, String.eqb_refl in Hin.
      discriminate.
Qed.

Lemma updateTimePoint_spec_witness :
  updateTimePoint "1000" "Start" (Some 10)
    [ {| id := "1000"; time := 1; label := "1" |};
      {| id := "2000"; time := 5; label := "2" |} ] =
    [ {| id := "1000"; time := 10; label := "Start" |};
      {| id := "2000"; time := 5; label := "2" |} ] /\
  exists after,
    find (hasId "2000")
      (updateTimePoint "2000" "End" None
         [ {| id := "1000"; time := 1; label := "1" |};
           {| id := "2000"; time := 5; label := "2" |} ]) = Some after /\
    label after = "End" /\ time after = 5.
Proof.
  split; [reflexivity|].
  destruct (updateTimePoint_spec
              [ {| id := "1000"; time := 1; label := "1" |};
                {| id := "2000"; time := 5; label := "2" |} ]
              "2000" "End" None) as (_ & _ & _ & H).
  destruct H as (before & after & Hb & Ha & _ & Hl & Ht).
  - exists {| id := "2000"; time := 5; label := "2" |}.
    split; [right; left; reflexivity | reflexivity].
  - exists after. split; [exact Ha|]. split; [exact Hl|].
    rewrite Ht. vm_compute in Hb. injection Hb as <-. reflexivity.
Defined.

(** C8. With an id that no stored point has, [removeTimePoint] and
    [updateTimePoint] leave the store exactly as it was; both are total
    functions, so nothing is raised. *)
Theorem unknown_id_noop (s : Store) (X : string) :
  (forall point, In point (timePoints s) -> id point <> X) ->
  step s (Remove X) = s /\
  forall lbl t, step s (Update X lbl t) = s.
Proof.
  intros H. destruct s as [pts mode]. simpl in *. split.
  - f_equal. unfold removeTimePoint.
    induction pts as [|p l IH]; [reflexivity|]. simpl.
    destruct (String.eqb_spec (id p) X) as [E|E].
    + exfalso. apply (H p); [now left | exact E].
    + simpl. f_equal. apply IH. intros q Hq. apply H. now right.
  - intros lbl t. f_equal. unfold updateTimePoint.
    induction pts as [|p l IH]; [reflexivity|]. simpl.
    destruct (String.eqb_spec (id p) X) as [E|E].
    + exfalso. apply (H p); [now left | exact E].
    + f_equal. apply IH. intros q Hq. apply H. now right.
Qed.

Lemma unknown_id_noop_witness :
  let s := run initial [Record_ 1000 (Some 4); Record_ 2000 (Some 2)] in
  step s (Remove "3000") = s /\
  step s (Update "3000" "x" (Some 9)) = s.
Proof.
  assert (H : forall point,
             In point
               (timePoints
                  (run initial [Record_ 1000 (Some 4);
                                Record_ 2000 (Some 2)])) ->
             id point <> "3000"%string).
  { vm_compute. intros point [<-|[<-|[]]]; discriminate. }
  split.
  - apply (unknown_id_noop _ H).
  - apply (unknown_id_noop _ H).
Defined.

(** ** The store: order *)

Lemma removeTimePoint_sorted (X : string) (l : list TimePoint) :
  sortedByTime l -> sortedByTime (removeTimePoint X l).
Proof.
  unfold sortedByTime, removeTimePoint.
  induction 1 as [|x l Hl IH Hx]; simpl; [constructor|].
  destruct (negb (String.eqb (id x) X)); [|assumption].
  constructor; [assumption|].
  apply Forall_forall. intros y Hy. apply filter_In in Hy as [Hy _].
  rewrite Forall_forall in Hx. now apply Hx.
Qed.

Lemma addTimePoint_sorted (lbl : string) (now : Z) (video : option Q)
    (mode : bool) (l : list TimePoint) :
  sortedByTime l -> sortedByTime (addTimePoint lbl now video mode l).
Proof.
  intros Hs. unfold addTimePoint. destruct video as [t|]; [|assumption].
  destruct mode; simpl negb; cbv iota zeta; [apply sortByTime_sorted|].
  destruct l as [|a [|b [|c l]]]; simpl Nat.eqb; cbv iota.
  - repeat constructor.
  - apply sortByTime_sorted.
  - apply sortByTime_sorted.
  - assumption.
Qed.

Lemma step_sorted (s : Store) (c : Call) :
  isUpdate c = false ->
  sortedByTime (timePoints s) -> sortedByTime (timePoints (step s c)).
Proof.
  intros Hc Hs. destruct c; simpl; try discriminate Hc.
  - unfold recordCurrentTime. destruct video; [apply sortByTime_sorted|].
    assumption.
  - now apply addTimePoint_sorted.
  - now apply removeTimePoint_sorted.
  - constructor.
  - assumption.
Qed.

Lemma run_sorted (calls : list Call) (s : Store) :
  forallb (fun c => negb (isUpdate c)) calls = true ->
  sortedByTime (timePoints s) -> sortedByTime (timePoints (run s calls)).
Proof.
  revert s. induction calls as [|c calls IH]; intros s Hc Hs; [assumption|].
  simpl in Hc. apply andb_true_iff in Hc as [Hc Hcs].
  simpl. apply IH; [assumption|].
  apply step_sorted; [|assumption].
  now apply negb_true_iff.
Qed.

Lemma atTime_app (t : Q) (l l' : list TimePoint) :
  atTime t (l ++ l') = atTime t l ++ atTime t l'.
Proof. apply filter_app. Qed.

Lemma sortByTime_snoc_sorted (l : list TimePoint) (p : TimePoint) :
  sortByTime (sortByTime l ++ [p]) = sortByTime (l ++ [p]).
Proof.
  apply sortByTime_unique; [apply sortByTime_sorted|].
  intros t. now rewrite sortByTime_stable, !atTime_app, sortByTime_stable.
Qed.

Lemma removeTimePoint_sortByTime (X : string) (l : list TimePoint) :
  removeTimePoint X (sortByTime l) = sortByTime (removeTimePoint X l).
Proof.
  apply sortByTime_unique;
    [apply removeTimePoint_sorted, sortByTime_sorted|].
  intros t. unfold removeTimePoint.
  pose proof (sortByTime_stable t l) as H. unfold atTime in *.
  assert (C : forall l0 : list TimePoint,
             filter (fun p => Qeq_bool (time p) t)
               (filter (fun point => negb (String.eqb (id point) X)) l0) =
             filter (fun point => negb (String.eqb (id point) X))
               (filter (fun p => Qeq_bool (time p) t) l0)).
  { induction l0 as [|q l0 IH]; simpl; [reflexivity|].
    destruct (negb (String.eqb (id q) X)) eqn:E1;
      destruct (Qeq_bool (time q) t) eqn:E2; simpl;
      rewrite ?E1, ?E2, IH; reflexivity. }
  now rewrite !C, H.
Qed.

(** Every call but [update] keeps the store equal to the stable sort of the
    points in insertion order. *)
Lemma step_insertion_order (s : Store) (log : list TimePoint) (c : Call) :
  isUpdate c = false ->
  timePoints s = sortByTime log ->
  timePoints (step s c) = sortByTime (logStep s log c).
Proof.
  intros Hc Hs. destruct s as [pts mode]. simpl in Hs.
  destruct c as [now video|lbl now video|X| | |];
    try discriminate Hc; cbn [step logStep timePoints isAdvancedMode];
    try assumption.
  - destruct video as [t|]; [|assumption].
    unfold recordCurrentTime. subst pts. apply sortByTime_snoc_sorted.
  - destruct video as [t|]; [|assumption].
    unfold addTimePoint, addDropped, keptByAdd.
    cbn [timePoints isAdvancedMode]. cbv zeta.
    match goal with
    | |- context [newPoint ?n ?c ?l] => generalize (newPoint n c l)
    end.
    intros p.
    destruct mode; simpl negb; simpl andb; cbv iota.
    + subst pts. apply sortByTime_snoc_sorted.
    + destruct pts as [|a [|b [|c l]]];
        simpl List.length; simpl Nat.eqb; simpl Nat.leb; cbv iota.
      * destruct log as [|q log]; [reflexivity|].
        apply (f_equal (@List.length _)) in Hs.
        rewrite sortByTime_length in Hs. discriminate Hs.
      * rewrite Hs. apply sortByTime_snoc_sorted.
      * reflexivity.
      * assumption.
  - subst pts. apply removeTimePoint_sortByTime.
  - reflexivity.
Qed.

Lemma run_insertion_order (calls : list Call) (s : Store)
    (log : list TimePoint) :
  forallb (fun c => negb (isUpdate c)) calls = true ->
  timePoints s = sortByTime log ->
  timePoints (run s calls) = sortByTime (insertionLog s log calls).
Proof.
  revert s log. induction calls as [|c calls IH]; intros s log Hc Hs;
    [assumption|].
  simpl in Hc. apply andb_true_iff in Hc as [Hc Hcs].
  simpl. apply IH; [assumption|].
  apply step_insertion_order; [|assumption].
  now apply negb_true_iff.
Qed.

(** C6. After any sequence of calls without [update], started on the empty
    store (the mode may be toggled along the way), the stored sequence is
    sorted ascending by time.  The sort is stable: it keeps the order of
    the points of any one time, and the store is the sort of the stored
    points taken in insertion order.  Accordingly a [record], and an [add] that
    is not dropped, keeps the points it retains in their order and puts the
    new point after every retained point that is not later and before
    every later one, so points of equal time stay in insertion order. *)
Theorem store_sorted_stable (calls : list Call) :
  forallb (fun c => negb (isUpdate c)) calls = true ->
  sortedByTime (timePoints (run initial calls)) /\
  (forall t l, atTime t (sortByTime l) = atTime t l) /\
  timePoints (run initial calls) =
    sortByTime (insertionLog initial [] calls) /\
  (forall now t,
      exists l1 l2,
        timePoints (run initial calls) = l1 ++ l2 /\
        timePoints (step (run initial calls) (Record_ now (Some t))) =
          l1 ++
          newPoint now t
            (JS.natToString
               (List.length (timePoints (run initial calls)) + 1)) :: l2 /\
        Forall (fun q => time q <= t) l1 /\
        Forall (fun q => t < time q) l2) /\
  (forall lbl now t,
      addDropped (run initial calls) = false ->
      exists l1 l2,
        keptByAdd (run initial calls) = l1 ++ l2 /\
        timePoints (step (run initial calls) (Add lbl now (Some t))) =
          l1 ++
          newPoint now t
            (JS.orElse lbl
               ("Point " ++
                JS.natToString
                  (List.length (timePoints (run initial calls)) + 1))%string)
          :: l2 /\
        Forall (fun q => time q <= t) l1 /\
        Forall (fun q => t < time q) l2).
Proof.
  intros Hc.
  assert (Hs : sortedByTime (timePoints (run initial calls)))
    by (apply run_sorted; [assumption | constructor]).
  split; [assumption|]. split; [intros t l; apply sortByTime_stable|].
  split; [now apply run_insertion_order|].
  destruct (run initial calls) as [pts mode]. simpl in Hs.
  split.
  - intros now t. simpl. unfold recordCurrentTime.
    destruct (sortByTime_snoc
                (newPoint now t (JS.natToString (List.length pts + 1))) Hs)
      as (l1 & l2 & E & Es & H1 & H2).
    exists l1, l2. repeat split; assumption.
  - intros lbl now t Hd. unfold addDropped, keptByAdd in *. simpl in *.
    set (p := newPoint now t
                (JS.orElse lbl
                   ("Point " ++ JS.natToString (List.length pts + 1))%string)).
    assert (Hk : forall kept, sortedByTime kept ->
              exists l1 l2, kept = l1 ++ l2 /\
                sortByTime (kept ++ [p]) = l1 ++ p :: l2 /\
                Forall (fun q => time q <= t) l1 /\
                Forall (fun q => t < time q) l2)
      by (intros kept Hkept; exact (sortByTime_snoc p Hkept)).
    unfold addTimePoint. fold p.
    destruct mode; simpl negb; simpl andb; cbv iota.
    + apply Hk, Hs.
    + destruct pts as [|a [|b [|c l]]]; simpl Nat.eqb; cbv iota.
      * exists [], []. repeat split; constructor.
      * apply Hk, Hs.
      * simpl firstn. apply (Hk [a]). repeat constructor.
      * discriminate Hd.
Qed.

Lemma store_sorted_stable_witness :
  sortedByTime
    (timePoints
       (run initial [Record_ 1000 (Some 5); Toggle; Add "" 2000 (Some 2);
                     Record_ 3000 (Some 5); Remove "2000"; Toggle;
                     Add "End" 4000 (Some 5)])).
Proof.
  apply (store_sorted_stable
           [Record_ 1000 (Some 5); Toggle; Add "" 2000 (Some 2);
            Record_ 3000 (Some 5); Remove "2000"; Toggle;
            Add "End" 4000 (Some 5)]).
  reflexivity.
Defined.

(** ** The store: replacement in simple mode *)

(** On a sorted store of two points the point [addTimePoint] keeps, the
    first one, is an earliest stored point. *)
Lemma addTimePoint_two_sorted (lbl : string) (now : Z) (t : Q)
    (a b : TimePoint) :
  sortedByTime [a; b] ->
  time a <= time b /\
  addTimePoint lbl now (Some t) false [a; b] =
    sortByTime [a; newPoint now t (JS.orElse lbl "Point 3")].
Proof.
  intros Hs. split; [|reflexivity].
  inversion Hs as [|? ? _ Ha]; subst. now inversion Ha.
Qed.

(** C4. [addTimePoint] keeps the first stored point, not the earliest one.
    After [update] has moved the first of two points past the second, an
    [add] in simple mode discards the stored point with the smaller time
    (5) and keeps the one with the larger time (10). *)
Theorem add_after_update_keeps_first :
  timePoints
    (run initial [Add "Start" 1000 (Some 1); Add "End" 2000 (Some 5);
                  Update "1000" "Start" (Some 10)]) =
    [ {| id := "1000"; time := 10; label := "Start" |};
      {| id := "2000"; time := 5; label := "End" |} ] /\
  timePoints
    (run initial [Add "Start" 1000 (Some 1); Add "End" 2000 (Some 5);
                  Update "1000" "Start" (Some 10); Add "" 3000 (Some 7)]) =
    [ {| id := "3000"; time := 7; label := "Point 3" |};
      {| id := "1000"; time := 10; label := "Start" |} ] /\
  ~ In {| id := "2000"; time := 5; label := "End" |}
      (timePoints
         (run initial [Add "Start" 1000 (Some 1); Add "End" 2000 (Some 5);
                       Update "1000" "Start" (Some 10);
                       Add "" 3000 (Some 7)])).
Proof.
  split; [reflexivity|]. split; [reflexivity|].
  vm_compute. intros [H|[H|[]]]; discriminate H.
Qed.

(** ** The store: ids *)

(** C9. The id of a point is the decimal form of [Date.now()], so two
    points created within one millisecond share their id: the ids in the
    store are then not unique, and removing by that id removes both. *)
Theorem same_millisecond_same_id :
  map id
    (timePoints
       (run initial [Record_ 1000 (Some 1); Record_ 1000 (Some 2)])) =
    ["1000"; "1000"] /\
  ~ NoDup
      (map id
         (timePoints
            (run initial [Record_ 1000 (Some 1); Record_ 1000 (Some 2)]))) /\
  map id
    (timePoints
       (run initial [Toggle; Add "a" 1000 (Some 1); Add "b" 1000 (Some 2)])) =
    ["1000"; "1000"] /\
  timePoints
    (run initial [Record_ 1000 (Some 1); Record_ 1000 (Some 2);
                  Remove "1000"]) = [].
Proof.
  split; [reflexivity|]. split; [|split; reflexivity].
  vm_compute. intros H. inversion H as [|? ? Hn _]; subst.
  apply Hn. now left.
Qed.

(** * Further properties of the handlers *)

(** ** Ids *)

Lemma to_int_proper (n : Z) :
  Z.to_int n <> Decimal.Pos Decimal.Nil /\
  Z.to_int n <> Decimal.Neg Decimal.Nil.
Proof.
  destruct n as [|p|p]; simpl; split; try discriminate;
    intros [= H]; exact (DecimalPos.Unsigned.to_uint_nonnil p H).
Qed.

(** [toString] gives distinct integers distinct strings. *)
Lemma toString_inj (n n' : Z) : JS.toString n = JS.toString n' -> n = n'.
Proof.
  unfold JS.toString. intros H.
  apply DecimalZ.to_int_inj.
  destruct (to_int_proper n) as [Hp Hn].
  destruct (to_int_proper n') as [Hp' Hn'].
  pose proof (NilZero.isi _ Hp Hn) as E.
  pose proof (NilZero.isi _ Hp' Hn') as E'.
  rewrite H, E' in E. now injection E.
Qed.

Lemma sortByTime_ids (l : list TimePoint) :
  Permutation (map id (sortByTime l)) (map id l).
Proof. apply Permutation_map, sortByTime_perm. Qed.

Lemma updateTimePoint_ids (X lbl : string) (t : option Q)
    (l : list TimePoint) :
  map id (updateTimePoint X lbl t l) = map id l.
Proof.
  unfold updateTimePoint. rewrite map_map. apply map_ext.
  intros point. simpl. now destruct (String.eqb (id point) X).
Qed.

Lemma removeTimePoint_NoDup (X : string) (l : list TimePoint) :
  NoDup (map id l) -> NoDup (map id (removeTimePoint X l)).
Proof.
  unfold removeTimePoint. induction l as [|p l IH]; simpl; intros H.
  - constructor.
  - inversion H as [|? ? Hn Hl]; subst.
    destruct (negb (String.eqb (id p) X)); [|now apply IH].
    simpl. constructor; [|now apply IH].
    intros Hin. apply Hn. apply in_map_iff in Hin as (q & Eq & Hq).
    apply filter_In in Hq as [Hq _]. apply in_map_iff. now exists q.
Qed.

Lemma idsFrom_weaken (seen seen' : list Z) (l : list TimePoint) :
  incl seen seen' -> idsFrom seen l -> idsFrom seen' l.
Proof.
  intros Hi [Hn Hs]. split; [assumption|].
  intros p Hp. destruct (Hs p Hp) as (n & Hin & E). exists n. auto.
Qed.

Lemma idsFrom_sub (seen : list Z) (l l' : list TimePoint) :
  NoDup (map id l') -> incl l' l -> idsFrom seen l -> idsFrom seen l'.
Proof.
  intros Hn Hi [_ Hs]. split; [assumption|]. intros p Hp. apply Hs, Hi, Hp.
Qed.

Lemma idsFrom_new (seen : list Z) (l : list TimePoint) (now : Z) (t : Q)
    (lbl : string) :
  ~ In now seen -> idsFrom seen l ->
  idsFrom (seen ++ [now]) (sortByTime (l ++ [newPoint now t lbl])).
Proof.
  intros Hfresh [Hn Hs]. split.
  - eapply Permutation_NoDup;
      [apply Permutation_sym, sortByTime_ids|].
    rewrite map_app. simpl.
    eapply Permutation_NoDup; [apply Permutation_cons_append|].
    constructor; [|assumption].
    intros Hin. apply in_map_iff in Hin as (q & Eq & Hq).
    destruct (Hs q Hq) as (n & Hin & E).
    rewrite E in Eq. apply toString_inj in Eq. now subst n.
  - intros p Hp.
    apply (Permutation_in _ (sortByTime_perm _)) in Hp.
    apply in_app_iff in Hp as [Hp|[<-|[]]].
    + destruct (Hs p Hp) as (n & Hin & E). exists n.
      split; [apply in_or_app; now left | assumption].
    + exists now. split; [apply in_or_app; right; now left | reflexivity].
Qed.

Lemma step_idsFrom (s : Store) (c : Call) (seen : list Z) :
  NoDup (seen ++ createdAt c) ->
  idsFrom seen (timePoints s) ->
  idsFrom (seen ++ createdAt c) (timePoints (step s c)).
Proof.
  intros Hd Hi. destruct s as [pts mode].
  assert (Hw : idsFrom (seen ++ createdAt c) pts)
    by (eapply idsFrom_weaken; [apply incl_appl, incl_refl | exact Hi]).
  destruct c as [now [t|]|lbl now [t|]|X|X lbl t| |];
    cbn [step timePoints isAdvancedMode createdAt] in *;
    try exact Hw.
  - unfold recordCurrentTime. apply idsFrom_new; [|assumption].
    apply NoDup_remove_2 in Hd. now rewrite app_nil_r in Hd.
  - assert (Hfresh : ~ In now seen).
    { apply NoDup_remove_2 in Hd. now rewrite app_nil_r in Hd. }
    unfold addTimePoint. cbv zeta.
    match goal with
    | |- context [newPoint now t ?l] => generalize l
    end.
    intros lab.
    assert (Hnew : forall l, idsFrom seen l ->
                     idsFrom (seen ++ [now])
                       (sortByTime (l ++ [newPoint now t lab])))
      by (intros l Hl; now apply idsFrom_new).
    destruct mode; simpl negb; cbv iota; [now apply Hnew|].
    destruct pts as [|a [|b [|c l]]];
      simpl List.length; simpl Nat.eqb; cbv iota.
    + apply (Hnew []). split; [constructor | intros ? []].
    + now apply Hnew.
    + apply (Hnew [a]).
      destruct Hi as [Hn Hs]. split.
      * constructor; [intros [] | constructor].
      * intros q [<-|[]]. apply Hs. now left.
    + exact Hw.
  - rewrite app_nil_r in *. destruct Hi as [Hn Hs]. split.
    + now apply removeTimePoint_NoDup.
    + intros p Hp. apply filter_In in Hp as [Hp _]. now apply Hs.
  - rewrite app_nil_r in *. destruct Hi as [Hn Hs]. split.
    + now rewrite updateTimePoint_ids.
    + intros p Hp. unfold updateTimePoint in Hp.
      apply in_map_iff in Hp as (q & Eq & Hq).
      destruct (Hs q Hq) as (n & Hin & E). exists n. split; [assumption|].
      destruct (String.eqb (id q) X); subst p; exact E.
  - split; [constructor | intros ? []].
Qed.

Lemma run_idsFrom (calls : list Call) (s : Store) (seen : list Z) :
  NoDup (seen ++ flat_map createdAt calls) ->
  idsFrom seen (timePoints s) ->
  idsFrom (seen ++ flat_map createdAt calls) (timePoints (run s calls)).
Proof.
  revert s seen. induction calls as [|c calls IH]; intros s seen Hd Hi.
  - simpl. now rewrite app_nil_r.
  - simpl in *. rewrite app_assoc in *. apply IH; [assumption|].
    apply step_idsFrom; [|assumption].
    eapply NoDup_app_remove_r. eassumption.
Qed.

(** X1. As long as [Date.now()] gives a different value at each creation
    of a point, the ids in the store are pairwise distinct after any
    sequence of calls ([update] included), and every id is the decimal form
    of one of those clock values. *)
Theorem ids_unique_when_clock_advances (calls : list Call) :
  NoDup (flat_map createdAt calls) ->
  NoDup (map id (timePoints (run initial calls))) /\
  forall p, In p (timePoints (run initial calls)) ->
            exists n, In n (flat_map createdAt calls) /\
                      id p = JS.toString n.
Proof.
  intros Hd.
  apply (run_idsFrom calls initial (seen:=[])); [exact Hd|].
  split; [constructor | intros ? []].
Qed.

Lemma ids_unique_when_clock_advances_witness :
  NoDup
    (map id
       (timePoints
          (run initial [Record_ 1000 (Some 4); Toggle; Add "" 1001 (Some 2);
                        Update "1000" "x" (Some 1); Record_ 1002 None;
                        Record_ 1003 (Some 4); Remove "1001"]))).
Proof.
  apply (ids_unique_when_clock_advances
           [Record_ 1000 (Some 4); Toggle; Add "" 1001 (Some 2);
            Update "1000" "x" (Some 1); Record_ 1002 None;
            Record_ 1003 (Some 4); Remove "1001"]).
  simpl. repeat constructor; simpl; intuition discriminate.
Defined.

(** ** Record and remove *)

Lemma removeTimePoint_absent (X : string) (l : list TimePoint) :
  (forall p, In p l -> id p <> X) -> removeTimePoint X l = l.
Proof.
  unfold removeTimePoint. induction l as [|p l IH]; intros H;
    [reflexivity|]. simpl.
  destruct (String.eqb_spec (id p) X) as [E|E].
  - exfalso. apply (H p); [now left | exact E].
  - simpl. f_equal. apply IH. intros q Hq. apply H. now right.
Qed.

Lemma removeTimePoint_snoc_new (now : Z) (t : Q) (lbl : string)
    (l : list TimePoint) :
  (forall p, In p l -> id p <> JS.toString now) ->
  removeTimePoint (JS.toString now)
    (sortByTime (l ++ [newPoint now t lbl])) = sortByTime l.
Proof.
  intros H. rewrite removeTimePoint_sortByTime. f_equal.
  unfold removeTimePoint. rewrite filter_app. simpl.
  rewrite String.eqb_refl. simpl. rewrite app_nil_r.
  now apply removeTimePoint_absent.
Qed.

(** X2. Removing a point just recorded undoes the record: when no stored
    point already has the id of the new point, [recordCurrentTime] followed
    by [removeTimePoint] of the new id gives back the stored points in
    sorted order, which is the store itself when it was sorted.  The same
    holds for [addTimePoint] in advanced mode. *)
Theorem record_then_remove (now : Z) (t : Q) (lbl : string)
    (timePoints : list TimePoint) :
  (forall p, In p timePoints -> id p <> JS.toString now) ->
  removeTimePoint (JS.toString now)
    (recordCurrentTime now (Some t) timePoints) = sortByTime timePoints /\
  removeTimePoint (JS.toString now)
    (addTimePoint lbl now (Some t) true timePoints) = sortByTime timePoints /\
  (sortedByTime timePoints ->
   removeTimePoint (JS.toString now)
     (recordCurrentTime now (Some t) timePoints) = timePoints /\
   removeTimePoint (JS.toString now)
     (addTimePoint lbl now (Some t) true timePoints) = timePoints).
Proof.
  intros H.
  assert (Hr : removeTimePoint (JS.toString now)
                 (recordCurrentTime now (Some t) timePoints)
               = sortByTime timePoints)
    by (unfold recordCurrentTime; now apply removeTimePoint_snoc_new).
  assert (Ha : removeTimePoint (JS.toString now)
                 (addTimePoint lbl now (Some t) true timePoints)
               = sortByTime timePoints)
    by (unfold addTimePoint; simpl negb; cbv iota zeta;
        now apply removeTimePoint_snoc_new).
  split; [assumption|]. split; [assumption|].
  intros Hs. rewrite Hr, Ha. rewrite (sortByTime_sorted_id Hs). now split.
Qed.

Lemma record_then_remove_witness :
  removeTimePoint "3000"
    (recordCurrentTime 3000 (Some 3)
       [examplePoint "1000" 1; examplePoint "2000" 5]) =
    [examplePoint "1000" 1; examplePoint "2000" 5].
Proof.
  apply (@record_then_remove 3000 3 ""
           [examplePoint "1000" 1; examplePoint "2000" 5]).
  - intros p [<-|[<-|[]]]; discriminate.
  - repeat constructor; discriminate.
Defined.

(** ** Simple mode beyond capacity *)

(** X3. In simple mode a store of 3 or more points is out of reach of
    [addTimePoint]: any sequence of [add] calls, whatever their labels and
    times, leaves the store exactly as it is.  Only [remove] or [reset] (or
    leaving simple mode) makes [add] effective again. *)
Theorem adds_dropped_beyond_capacity (s : Store) (calls : list Call) :
  isAdvancedMode s = false ->
  (3 <= List.length (timePoints s))%nat ->
  forallb isAdd calls = true ->
  run s calls = s.
Proof.
  intros Hm Hl. induction calls as [|c calls IH]; intros Ha;
    [reflexivity|].
  simpl in Ha. apply andb_true_iff in Ha as [Hc Ha].
  destruct c as [|lbl now video| | | |]; try discriminate Hc.
  simpl.
  assert (E : mkStore (addTimePoint lbl now video (isAdvancedMode s)
                         (timePoints s)) (isAdvancedMode s) = s).
  { destruct s as [pts mode]. simpl in *. subst mode. f_equal.
    unfold addTimePoint. destruct video as [t|]; [|reflexivity].
    destruct pts as [|a [|b [|c l]]]; simpl in Hl; try lia. reflexivity. }
  rewrite E. now apply IH.
Qed.

Lemma adds_dropped_beyond_capacity_witness :
  run (run initial [Record_ 1000 (Some 4); Record_ 2000 (Some 2);
                    Record_ 3000 (Some 6)])
      [Add "a" 4000 (Some 1); Add "" 5000 (Some 9); Add "End" 6000 None] =
  run initial [Record_ 1000 (Some 4); Record_ 2000 (Some 2);
               Record_ 3000 (Some 6)].
Proof.
  apply adds_dropped_beyond_capacity;
    [reflexivity | simpl; lia | reflexivity].
Defined.

(** ** Successive updates *)

(** X4. Updates compose as "last write wins": two updates of the same id
    amount to one update with the second label, and with the second time
    if one is passed and the first time otherwise.  Updates of different
    ids can be made in either order. *)
Theorem updateTimePoint_twice (timePoints : list TimePoint)
    (X Y l1 l2 : string) (t1 t2 : option Q) :
  updateTimePoint X l2 t2 (updateTimePoint X l1 t1 timePoints) =
    updateTimePoint X l2
      (match t2 with Some t => Some t | None => t1 end) timePoints /\
  (X <> Y ->
   updateTimePoint X l1 t1 (updateTimePoint Y l2 t2 timePoints) =
     updateTimePoint Y l2 t2 (updateTimePoint X l1 t1 timePoints)).
Proof.
  unfold updateTimePoint. split.
  - rewrite map_map. apply map_ext. intros p.
    destruct (String.eqb_spec (id p) X) as [E|E]; simpl.
    + rewrite E, String.eqb_refl. now destruct t2, t1.
    + now destruct (String.eqb_spec (id p) X).
  - intros Hxy. rewrite !map_map. apply map_ext. intros p.
    destruct (String.eqb_spec (id p) Y) as [Ey|Ey];
      destruct (String.eqb_spec (id p) X) as [Ex|Ex]; simpl.
    + congruence.
    + destruct (String.eqb_spec (id p) X); [contradiction|].
      destruct (String.eqb_spec (id p) Y); [reflexivity|contradiction].
    + destruct (String.eqb_spec (id p) X); [|contradiction].
      destruct (String.eqb_spec (id p) Y); [contradiction|reflexivity].
    + destruct (String.eqb_spec (id p) X); [contradiction|].
      destruct (String.eqb_spec (id p) Y); [contradiction|reflexivity].
Qed.

Lemma updateTimePoint_twice_witness :
  updateTimePoint "1000" "a" (Some 3)
    (updateTimePoint "2000" "b" None
       [examplePoint "1000" 1; examplePoint "2000" 5]) =
  updateTimePoint "2000" "b" None
    (updateTimePoint "1000" "a" (Some 3)
       [examplePoint "1000" 1; examplePoint "2000" 5]).
Proof.
  apply (@updateTimePoint_twice
           [examplePoint "1000" 1; examplePoint "2000" 5]
           "1000" "2000" "a" "b" (Some 3) None).
  discriminate.
Defined.

(** ** Signs of the computed durations *)

Lemma pairUp_nonneg (l : list TimePoint) :
  sortedByTime l -> Forall (fun d => 0 <= duration d) (pairUp l).
Proof.
  unfold sortedByTime.
  induction l as [| |x y l IH] using pair_induction; intros Hs; simpl;
    try constructor.
  - inversion Hs as [|? ? _ Hx]; subst. inversion Hx as [|? ? Hxy _]; subst.
    simpl. unfold leTime in Hxy. lra.
  - apply IH. inversion Hs as [|? ? Hs' _]; subst. now inversion Hs'.
Qed.

Lemma sumQ_nonneg (l : list Q) : Forall (fun q => 0 <= q) l -> 0 <= sumQ l.
Proof.
  induction 1 as [|q l Hq _ IH]; simpl; [apply Qle_refl|]. lra.
Qed.

Lemma calculateTotalDuration_simple (timePoints : list TimePoint) :
  (2 <= List.length timePoints)%nat ->
  exists firstPoint lastPoint,
    In firstPoint timePoints /\ In lastPoint timePoints /\
    (forall p, In p timePoints ->
               time firstPoint <= time p /\ time p <= time lastPoint) /\
    calculateTotalDuration false timePoints
      = Some (time lastPoint - time firstPoint).
Proof.
  intros H2.
  destruct (first_last_exist (sortByTime timePoints))
    as (firstPoint & lastPoint & Hf & Hl);
    [now rewrite sortByTime_length|].
  pose proof (sortByTime_perm timePoints) as HP.
  exists firstPoint, lastPoint.
  assert (Hl' := Hl). rewrite sortByTime_length in Hl'.
  split; [apply (Permutation_in _ HP); eapply nth_error_In; eassumption|].
  split; [apply (Permutation_in _ HP); eapply nth_error_In; eassumption|].
  split.
  - intros p Hp. apply (Permutation_in _ (Permutation_sym HP)) in Hp. split.
    + now apply (sorted_first_min (sortByTime_sorted timePoints) Hf).
    + now apply (sorted_last_max (sortByTime_sorted timePoints) Hl).
  - unfold calculateTotalDuration.
    destruct (Nat.ltb_spec (List.length timePoints) 2); [lia|].
    simpl negb. cbv zeta. now rewrite Hl, Hf.
Qed.

(** X5. Whatever the stored sequence (sorted or not), every duration
    [calculateDurations] returns is non-negative, the total is non-negative
    in both modes, and the estimate lies between 0 and the total. *)
Theorem durations_nonnegative (isAdvancedMode : bool)
    (timePoints : list TimePoint) :
  exists durations total,
    calculateDurations timePoints = Some durations /\
    Forall (fun pair => 0 <= duration pair) durations /\
    calculateTotalDuration isAdvancedMode timePoints = Some total /\
    0 <= total /\
    0 <= estimatedDuration total /\ estimatedDuration total <= total.
Proof.
  pose proof (pairUp_nonneg (sortByTime_sorted timePoints)) as Hd.
  assert (Ht : exists total,
             calculateTotalDuration isAdvancedMode timePoints = Some total /\
             0 <= total).
  { destruct (Nat.ltb_spec (List.length timePoints) 2) as [H|H].
    - exists 0. split; [|apply Qle_refl].
      unfold calculateTotalDuration.
      now destruct (Nat.ltb_spec (List.length timePoints) 2); [|lia].
    - destruct isAdvancedMode.
      + unfold calculateTotalDuration.
        destruct (Nat.ltb_spec (List.length timePoints) 2); [lia|].
        rewrite calculateDurations_pairUp. eexists. split; [reflexivity|].
        rewrite reduce_sum.
        assert (0 <= sumQ (map duration (pairUp (sortByTime timePoints)))).
        { apply sumQ_nonneg, Forall_map. exact Hd. }
        lra.
      + destruct (calculateTotalDuration_simple timePoints H)
          as (f & l & Hf & Hl & Hb & E).
        exists (time l - time f). split; [exact E|].
        destruct (Hb l Hl) as [Hfl _]. lra. }
  destruct Ht as (total & Et & Hpos).
  exists (pairUp (sortByTime timePoints)), total.
  split; [apply calculateDurations_pairUp|].
  split; [exact Hd|]. split; [exact Et|]. split; [exact Hpos|].
  unfold estimatedDuration. split; lra.
Qed.

(** ** What is rendered *)

(** X6. The calculations panel shows its placeholder exactly when fewer
    than two points are stored, in simple and in advanced mode alike: the
    advanced-mode test "no pair" and the simple-mode test "fewer than two
    points" coincide. *)
Theorem showPlaceholder_iff_fewer_than_two (isAdvancedMode : bool)
    (timePoints : list TimePoint) :
  showPlaceholder isAdvancedMode timePoints =
    Some (List.length timePoints <? 2)%nat.
Proof.
  unfold showPlaceholder. rewrite calculateDurations_pairUp.
  rewrite pairUp_length, sortByTime_length. f_equal.
  destruct isAdvancedMode; simpl.
  - now destruct (List.length timePoints) as [|[|n]].
  - now rewrite orb_false_r.
Qed.

(** X7. The estimate is never shown in advanced mode; in simple mode it is
    shown exactly when two stored points have different times. *)
Theorem showEstimate_iff_distinct_times (timePoints : list TimePoint) :
  showEstimate true timePoints = Some false /\
  exists shown,
    showEstimate false timePoints = Some shown /\
    (shown = true <->
     exists p q, In p timePoints /\ In q timePoints /\ time p < time q).
Proof.
  split.
  - unfold showEstimate.
    destruct (durations_nonnegative true timePoints)
      as (ds & total & _ & _ & Et & _).
    now rewrite Et.
  - unfold showEstimate.
    destruct (Nat.ltb_spec (List.length timePoints) 2) as [H|H].
    + exists false. split.
      * unfold calculateTotalDuration.
        now destruct (Nat.ltb_spec (List.length timePoints) 2); [|lia].
      * split; [discriminate|]. intros (p & q & Hp & Hq & Hlt).
        exfalso. destruct timePoints as [|a [|b l]]; simpl in H; try lia.
        -- destruct Hp.
        -- destruct Hp as [<-|[]], Hq as [<-|[]]. lra.
    + destruct (calculateTotalDuration_simple timePoints H)
        as (f & l & Hf & Hl & Hb & E).
      rewrite E. eexists. split; [reflexivity|]. simpl negb.
      rewrite andb_true_l.
      change (time l - time f) with (byTime l f).
      rewrite isPositive_byTime. split.
      * intros Hlt. now exists f, l.
      * intros (p & q & Hp & Hq & Hlt).
        destruct (Hb p Hp) as [Hfp _]. destruct (Hb q Hq) as [_ Hql]. lra.
Qed.

Lemma find_unique_id (l : list TimePoint) (p : TimePoint) :
  NoDup (map id l) -> In p l -> find (hasId (id p)) l = Some p.
Proof.
  unfold hasId. induction l as [|q l IH]; intros Hn Hp; [destruct Hp|].
  simpl in *. inversion Hn as [|? ? Hq Hl]; subst.
  destruct Hp as [->|Hp]; [now rewrite String.eqb_refl|].
  destruct (String.eqb_spec (id q) (id p)) as [E|E]; [|now apply IH].
  exfalso. apply Hq. rewrite E. now apply in_map.
Qed.

Lemma pairUp_nth_inv (l : list TimePoint) (k : nat) (pair : DurationPair) :
  nth_error (pairUp l) k = Some pair ->
  exists s e,
    nth_error l (2 * k) = Some s /\ nth_error l (2 * k + 1) = Some e /\
    pair = {| startId := id s; endId := id e;
              duration := time e - time s |}.
Proof.
  revert k. induction l as [| |x y l IH] using pair_induction; intros k H.
  - now destruct k.
  - now destruct k.
  - destruct k as [|k].
    + simpl in H. injection H as <-. now exists x, y.
    + simpl in H. destruct (IH k H) as (s & e & Hs & He & E).
      exists s, e.
      replace (2 * S k)%nat with (S (S (2 * k))) by lia.
      replace (S (S (2 * k)) + 1)%nat with (S (S (2 * k + 1))) by lia.
      now repeat split.
Qed.

(** X8. When the stored ids are pairwise distinct, the labels rendered
    for a pair are the labels of the two points the pair was computed
    from: the lookups by [startId] and [endId] find the sorted points
    [2k] and [2k+1]. *)
Theorem pairLabels_unique_ids (timePoints : list TimePoint)
    (durations : list DurationPair) (k : nat) (pair : DurationPair) :
  NoDup (map id timePoints) ->
  calculateDurations timePoints = Some durations ->
  nth_error durations k = Some pair ->
  exists startPoint endPoint,
    nth_error (sortByTime timePoints) (2 * k) = Some startPoint /\
    nth_error (sortByTime timePoints) (2 * k + 1) = Some endPoint /\
    find (hasId (startId pair)) timePoints = Some startPoint /\
    find (hasId (endId pair)) timePoints = Some endPoint /\
    pairLabels timePoints pair =
      (Some (label startPoint), Some (label endPoint)) /\
    duration pair = time endPoint - time startPoint.
Proof.
  intros Hn Hc Hk. rewrite calculateDurations_pairUp in Hc.
  injection Hc as <-.
  destruct (pairUp_nth_inv _ _ Hk) as (s & e & Hs & He & ->).
  pose proof (sortByTime_perm timePoints) as HP.
  assert (Is : In s timePoints)
    by (apply (Permutation_in _ HP); eapply nth_error_In; eassumption).
  assert (Ie : In e timePoints)
    by (apply (Permutation_in _ HP); eapply nth_error_In; eassumption).
  exists s, e. unfold pairLabels. simpl.
  rewrite (@find_unique_id timePoints s Hn Is).
  rewrite (@find_unique_id timePoints e Hn Ie).
  now repeat split.
Qed.

Lemma pairLabels_unique_ids_witness :
  pairLabels
    [ {| id := "3"; time := 9; label := "land" |};
      {| id := "1"; time := 2; label := "jump" |};
      {| id := "2"; time := 4; label := "peak" |} ]
    {| startId := "1"; endId := "2"; duration := 2 |} =
  (Some "jump", Some "peak").
Proof.
  destruct (@pairLabels_unique_ids
              [ {| id := "3"; time := 9; label := "land" |};
                {| id := "1"; time := 2; label := "jump" |};
                {| id := "2"; time := 4; label := "peak" |} ]
              [ {| startId := "1"; endId := "2"; duration := 2 |} ]
              0 {| startId := "1"; endId := "2"; duration := 2 |})
    as (s & e & Hs & He & _ & _ & Hl & _).
  - simpl. repeat constructor; simpl; intuition discriminate.
  - reflexivity.
  - reflexivity.
  - vm_compute in Hs, He. injection Hs as <-. injection He as <-. exact Hl.
Defined.

(** X15. The list the component renders is always sorted by time, and it
    is the stored sequence itself after any calls other than [update]: the
    sort at render time only matters once a time has been edited. *)
Theorem displayedPoints_is_store (calls : list Call) :
  sortedByTime (displayedPoints (timePoints (run initial calls))) /\
  (forallb (fun c => negb (isUpdate c)) calls = true ->
   displayedPoints (timePoints (run initial calls)) =
     timePoints (run initial calls)).
Proof.
  unfold displayedPoints. split; [apply sortByTime_sorted|].
  intros Hc. apply sortByTime_sorted_id, run_sorted; [assumption|].
  constructor.
Qed.

Lemma displayedPoints_is_store_witness :
  displayedPoints
    (timePoints
       (run initial [Record_ 1000 (Some 5); Record_ 2000 (Some 2);
                     Remove "1000"; Record_ 3000 (Some 1)])) =
  timePoints
    (run initial [Record_ 1000 (Some 5); Record_ 2000 (Some 2);
                  Remove "1000"; Record_ 3000 (Some 1)]).
Proof.
  apply (displayedPoints_is_store
           [Record_ 1000 (Some 5); Record_ 2000 (Some 2);
            Remove "1000"; Record_ 3000 (Some 1)]).
  reflexivity.
Defined.

(** ** Seeking *)

Lemma frameDuration_pos : 0 < frameDuration.
Proof. reflexivity. Qed.

(** X12. On a video whose position lies within [0, duration],
    [seekOneFrame] pauses the video, leaves the duration alone and keeps
    the position within [0, duration]: forward never moves it earlier and
    never past the end, backward never moves it later and never before 0.
    So forward at the end and backward at 0 leave the position where it
    is. *)
Theorem seekOneFrame_clamped (direction : Direction) (video : Video.t) :
  inRange video ->
  exists video',
    seekOneFrame direction (Some video) = Some video' /\
    inRange video' /\
    Video.duration video' = Video.duration video /\
    Video.paused video' = true /\
    match direction with
    | forward => Video.currentTime video <= Video.currentTime video'
    | backward => Video.currentTime video' <= Video.currentTime video
    end.
Proof.
  intros [H0 Hd]. pose proof frameDuration_pos as Hf.
  destruct direction; simpl; eexists; (split; [reflexivity|]);
    unfold inRange; simpl.
  - destruct (Q.min_spec (Video.duration video)
                (Video.currentTime video + frameDuration)) as [[H1 H2]|[H1 H2]];
      rewrite H2; repeat split; lra.
  - destruct (Q.max_spec 0 (Video.currentTime video - frameDuration))
      as [[H1 H2]|[H1 H2]];
      rewrite H2; repeat split; lra.
Qed.

Lemma seekOneFrame_clamped_witness :
  exists video',
    seekOneFrame forward
      (Some {| Video.currentTime := 10; Video.duration := 10;
               Video.paused := false |}) = Some video' /\
    Video.currentTime video' == 10.
Proof.
  destruct (@seekOneFrame_clamped forward
              {| Video.currentTime := 10; Video.duration := 10;
                 Video.paused := false |})
    as (video' & E & [_ Hd] & Ed & _ & Hle).
  - split; simpl; lra.
  - exists video'. split; [exact E|]. simpl in *. rewrite Ed in Hd. lra.
Defined.

(** X13. [seekBySeconds] puts the position within [0, duration] whatever
    the position and the offset were, as soon as the duration is not
    negative; when position + offset lies within [0, duration] it is the
    new position.  Stepping one frame forward is seeking by one frame
    duration, and one frame backward seeking by minus one frame duration,
    for every position within the video. *)
Theorem seekBySeconds_clamped (seconds : Q) (video : Video.t) :
  0 <= Video.duration video ->
  exists video',
    seekBySeconds seconds (Some video) = Some video' /\
    inRange video' /\
    Video.duration video' = Video.duration video /\
    Video.paused video' = true /\
    (0 <= Video.currentTime video + seconds <= Video.duration video ->
     Video.currentTime video' == Video.currentTime video + seconds) /\
    (inRange video ->
     forall stepped sought,
       seekOneFrame forward (Some video) = Some stepped ->
       seekBySeconds frameDuration (Some video) = Some sought ->
       Video.currentTime stepped == Video.currentTime sought) /\
    (inRange video ->
     forall stepped sought,
       seekOneFrame backward (Some video) = Some stepped ->
       seekBySeconds (- frameDuration) (Some video) = Some sought ->
       Video.currentTime stepped == Video.currentTime sought).
Proof.
  intros Hd. pose proof frameDuration_pos as Hf.
  eexists. split; [reflexivity|]. unfold inRange. simpl.
  split; [|split; [reflexivity|split; [reflexivity|split; [|split]]]].
  - destruct (Q.max_spec 0 (Video.currentTime video + seconds))
      as [[H1 H2]|[H1 H2]];
      destruct (Q.min_spec (Video.duration video)
                  (Qmax 0 (Video.currentTime video + seconds)))
        as [[H3 H4]|[H3 H4]];
      rewrite H4; try rewrite H2; split; lra.
  - intros [Hlo Hhi].
    destruct (Q.max_spec 0 (Video.currentTime video + seconds))
      as [[H1 H2]|[H1 H2]];
      destruct (Q.min_spec (Video.duration video)
                  (Qmax 0 (Video.currentTime video + seconds)))
        as [[H3 H4]|[H3 H4]];
      rewrite H4; try rewrite H2; rewrite H2 in H3; lra.
  - intros [Hlo Hhi] stepped sought [= <-] [= <-]. simpl.
    destruct (Q.max_spec 0 (Video.currentTime video + frameDuration))
      as [[H1 H2]|[H1 H2]]; [|lra].
    destruct (Q.min_spec (Video.duration video)
                (Video.currentTime video + frameDuration))
      as [[H3 H4]|[H3 H4]];
      destruct (Q.min_spec (Video.duration video)
                  (Qmax 0 (Video.currentTime video + frameDuration)))
        as [[H5 H6]|[H5 H6]];
      rewrite H4, H6; try rewrite H2; rewrite H2 in H5; lra.
  - intros [Hlo Hhi] stepped sought [= <-] [= <-]. simpl.
    assert (E : Video.currentTime video + - frameDuration
                == Video.currentTime video - frameDuration) by ring.
    destruct (Q.max_spec 0 (Video.currentTime video - frameDuration))
      as [[H1 H2]|[H1 H2]];
      destruct (Q.max_spec 0 (Video.currentTime video + - frameDuration))
        as [[H3 H4]|[H3 H4]];
      destruct (Q.min_spec (Video.duration video)
                  (Qmax 0 (Video.currentTime video + - frameDuration)))
        as [[H5 H6]|[H5 H6]];
      rewrite H2, H6; try rewrite H4; rewrite H4 in H5; lra.
Qed.

Lemma seekBySeconds_clamped_witness :
  exists video',
    seekBySeconds (-1)
      (Some {| Video.currentTime := 0.5; Video.duration := 10;
               Video.paused := false |}) = Some video' /\
    inRange video'.
Proof.
  destruct (@seekBySeconds_clamped (-1)
              {| Video.currentTime := 0.5; Video.duration := 10;
                 Video.paused := false |})
    as (video' & E & Hr & _).
  - simpl. lra.
  - exists video'. now split.
Defined.

Lemma seekOneFrame_inRange (direction : Direction) (video : Video.t) :
  inRange video ->
  exists video',
    seekOneFrame direction (Some video) = Some video' /\
    inRange video' /\ Video.duration video' = Video.duration video.
Proof.
  intros [H0 Hd]. pose proof frameDuration_pos as Hf.
  destruct direction; simpl; eexists; (split; [reflexivity|]);
    unfold inRange; simpl.
  - destruct (Q.min_spec (Video.duration video)
                (Video.currentTime video + frameDuration)) as [[H1 H2]|[H1 H2]];
      rewrite H2; repeat split; lra.
  - destruct (Q.max_spec 0 (Video.currentTime video - frameDuration))
      as [[H1 H2]|[H1 H2]];
      rewrite H2; repeat split; lra.
Qed.

Lemma seekBySeconds_inRange (seconds : Q) (video : Video.t) :
  0 <= Video.duration video ->
  exists video',
    seekBySeconds seconds (Some video) = Some video' /\
    inRange video' /\ Video.duration video' = Video.duration video.
Proof.
  intros Hd. eexists. split; [reflexivity|]. unfold inRange. simpl.
  split; [|reflexivity].
  destruct (Q.max_spec 0 (Video.currentTime video + seconds))
    as [[H1 H2]|[H1 H2]];
    destruct (Q.min_spec (Video.duration video)
                (Qmax 0 (Video.currentTime video + seconds)))
      as [[H3 H4]|[H3 H4]];
    rewrite H4; try rewrite H2; split; lra.
Qed.

Lemma seek_step (u : UI) (ev : Event) (video : Video.t) :
  isSeekEvent ev = true ->
  videoRef u = Some video -> inRange video ->
  exists video',
    videoRef (uiStep u ev) = Some video' /\ inRange video' /\
    Video.duration video' = Video.duration video /\
    store (uiStep u ev) = store u /\
    newPointLabel (uiStep u ev) = newPointLabel u /\
    editingPointId (uiStep u ev) = editingPointId u.
Proof.
  intros He Hv Hr.
  assert (Hd : 0 <= Video.duration video)
    by (destruct Hr; eapply Qle_trans; eassumption).
  destruct ev as [e now| | | | | | | | | |d|sec| |]; try discriminate He;
    simpl in *.
  - unfold handleKeyDown.
    destruct (String.eqb (key e) "ArrowLeft") eqn:EL; simpl.
    + rewrite Hv.
      destruct (seekOneFrame_inRange backward Hr) as (v' & E & Hr' & Ed).
      exists v'. rewrite E. destruct Hr'. now repeat split.
    + simpl in He. rewrite He. simpl. rewrite Hv.
      destruct (seekOneFrame_inRange forward Hr) as (v' & E & Hr' & Ed).
      exists v'. rewrite E. destruct Hr'. now repeat split.
  - rewrite Hv. simpl.
    destruct Hr. destruct (Video.paused video); eexists; now repeat split.
  - rewrite Hv.
    destruct (seekOneFrame_inRange d Hr) as (v' & E & Hr' & Ed).
    exists v'. rewrite E. destruct Hr'. now repeat split.
  - rewrite Hv.
    destruct (seekBySeconds_inRange sec video Hd) as (v' & E & Hr' & Ed).
    exists v'. rewrite E. destruct Hr'. now repeat split.
Qed.

(** X16. Any sequence of seeks (the frame and second buttons, the arrow
    keys) and play/pause clicks keeps the position of a loaded video within
    [0, duration], and changes neither the duration nor the stored points,
    the label being typed or the point being edited. *)
Theorem seeks_stay_in_range (events : list Event) (u : UI)
    (video : Video.t) :
  forallb isSeekEvent events = true ->
  videoRef u = Some video -> inRange video ->
  exists video',
    videoRef (uiRun u events) = Some video' /\ inRange video' /\
    Video.duration video' = Video.duration video /\
    store (uiRun u events) = store u /\
    newPointLabel (uiRun u events) = newPointLabel u /\
    editingPointId (uiRun u events) = editingPointId u.
Proof.
  revert u video. induction events as [|ev events IH];
    intros u video He Hv Hr.
  - exists video. destruct Hr. now repeat split.
  - simpl in He. apply andb_true_iff in He as [Hev He].
    destruct (seek_step u ev Hev Hv Hr)
      as (v1 & Hv1 & Hr1 & Ed1 & Es1 & El1 & Ee1).
    destruct (IH (uiStep u ev) v1 He Hv1 Hr1)
      as (v2 & Hv2 & Hr2 & Ed2 & Es2 & El2 & Ee2).
    exists v2. simpl.
    repeat split; try apply Hr2; congruence.
Qed.

Lemma seeks_stay_in_range_witness :
  exists video',
    videoRef
      (uiRun
         {| store := initial;
            videoRef := Some {| Video.currentTime := 0; Video.duration := 3;
                                Video.paused := false |};
            newPointLabel := "";
            editingPointId := None |}
         [ClickSeek (-1); ClickFrame forward; ClickSeek 7;
          KeyDown {| key := "ArrowRight"; code := "ArrowRight" |} 1000;
          ClickPlayPause]) = Some video' /\
    inRange video'.
Proof.
  destruct (@seeks_stay_in_range
              [ClickSeek (-1); ClickFrame forward; ClickSeek 7;
               KeyDown {| key := "ArrowRight"; code := "ArrowRight" |} 1000;
               ClickPlayPause]
              {| store := initial;
                 videoRef := Some {| Video.currentTime := 0;
                                     Video.duration := 3;
                                     Video.paused := false |};
                 newPointLabel := "";
                 editingPointId := None |}
              {| Video.currentTime := 0; Video.duration := 3;
                 Video.paused := false |})
    as (video' & E & Hr & _).
  - reflexivity.
  - reflexivity.
  - split; simpl; lra.
  - exists video'. now split.
Defined.

(** ** Labels *)

Lemma natToString_nonEmpty (n : nat) : nonEmpty (JS.natToString n).
Proof.
  unfold nonEmpty, JS.natToString.
  destruct (Nat.to_uint n); simpl; discriminate.
Qed.

Lemma orElse_nonEmpty (a b : string) : nonEmpty b -> nonEmpty (JS.orElse a b).
Proof. unfold nonEmpty. destruct a; simpl; [auto | discriminate]. Qed.

Lemma sortByTime_Forall (P : TimePoint -> Prop) (l : list TimePoint) :
  Forall P l -> Forall P (sortByTime l).
Proof.
  apply Permutation_Forall, Permutation_sym, sortByTime_perm.
Qed.

Lemma recordCurrentTime_labels (now : Z) (video : option Q)
    (l : list TimePoint) :
  Forall (fun p => nonEmpty (label p)) l ->
  Forall (fun p => nonEmpty (label p)) (recordCurrentTime now video l).
Proof.
  intros H. unfold recordCurrentTime. destruct video as [t|]; [|assumption].
  apply sortByTime_Forall, Forall_app. split; [assumption|].
  repeat constructor. simpl. apply natToString_nonEmpty.
Qed.

Lemma addTimePoint_labels (lbl : string) (now : Z) (video : option Q)
    (mode : bool) (l : list TimePoint) :
  Forall (fun p => nonEmpty (label p)) l ->
  Forall (fun p => nonEmpty (label p)) (addTimePoint lbl now video mode l).
Proof.
  intros H. unfold addTimePoint. destruct video as [t|]; [|assumption].
  cbv zeta.
  match goal with
  | |- context [newPoint now t ?lab] =>
      assert (Hp : nonEmpty (label (newPoint now t lab)))
        by (simpl; apply orElse_nonEmpty; discriminate);
      generalize dependent (newPoint now t lab)
  end.
  intros p Hp.
  assert (Hs : forall l0, Forall (fun q => nonEmpty (label q)) l0 ->
                 Forall (fun q => nonEmpty (label q)) (sortByTime (l0 ++ [p]))).
  { intros l0 H0. apply sortByTime_Forall, Forall_app.
    split; [assumption | now repeat constructor]. }
  destruct mode; simpl negb; cbv iota; [now apply Hs|].
  destruct l as [|a [|b [|c l]]]; simpl List.length; simpl Nat.eqb; cbv iota.
  - now repeat constructor.
  - now apply Hs.
  - apply (Hs [a]). inversion H; subst. now repeat constructor.
  - assumption.
Qed.

Lemma uiStep_labels (u : UI) (ev : Event) :
  Forall (fun p => nonEmpty (label p)) (timePoints (store u)) ->
  Forall (fun p => nonEmpty (label p)) (timePoints (store (uiStep u ev))).
Proof.
  intros H. destruct ev as [e now|now|point| |text|i|t|confirmed| | |d|sec|v|t];
    simpl; try assumption.
  - unfold handleKeyDown.
    destruct (String.eqb (key e) "ArrowLeft"); [assumption|].
    destruct (String.eqb (key e) "ArrowRight"); [assumption|].
    destruct (String.eqb (key e) " " || String.eqb (code e) "Space");
      [|assumption].
    simpl. now apply recordCurrentTime_labels.
  - unfold handleAddTimePoint.
    destruct (isEditing (editingPointId u)) as [editing|]; simpl.
    + unfold updateTimePoint. apply Forall_map.
      eapply Forall_impl; [|exact H]. intros p Hp.
      destruct (String.eqb (id p) editing); [|assumption].
      simpl. apply orElse_nonEmpty. discriminate.
    + now apply addTimePoint_labels.
  - unfold removeTimePoint. apply Forall_forall. intros p Hp.
    apply filter_In in Hp as [Hp _]. rewrite Forall_forall in H. now apply H.
  - destruct confirmed; simpl; [constructor | assumption].
Qed.

(** X9. No stored point ever has an empty label: whatever the user types
    (or leaves empty) and in whatever order the events come, every point
    created or edited through the components gets a label of at least one
    character. *)
Theorem labels_never_empty (events : list Event) :
  Forall (fun p => label p <> "")
    (timePoints (store (uiRun initialUI events))).
Proof.
  assert (H : forall u,
             Forall (fun p => nonEmpty (label p)) (timePoints (store u)) ->
             Forall (fun p => nonEmpty (label p))
               (timePoints (store (uiRun u events)))).
  { induction events as [|ev events IH]; intros u Hu; [assumption|].
    simpl. apply IH. now apply uiStep_labels. }
  apply (H initialUI). constructor.
Qed.

(** ** Editing through the component *)

Lemma updateTimePoint_absent (X lbl : string) (t : option Q)
    (l : list TimePoint) :
  (forall p, In p l -> id p <> X) -> updateTimePoint X lbl t l = l.
Proof.
  unfold updateTimePoint. induction l as [|p l IH]; intros H;
    [reflexivity|]. simpl.
  destruct (String.eqb_spec (id p) X) as [E|E].
  - exfalso. apply (H p); [now left | exact E].
  - f_equal. apply IH. intros q Hq. apply H. now right.
Qed.

(** X10. While a point is being edited, the add button creates no point:
    it keeps the ids of the stored points in place, gives every point with
    the edited id the typed label (or "unlabeled") and, always, the current
    position of the video (0 without a video) as its time, leaves the other
    points untouched, and ends the editing with an empty label field. *)
Theorem handleAddTimePoint_editing (now : Z) (u : UI) (X : string) :
  isEditing (editingPointId u) = Some X ->
  map id (timePoints (store (handleAddTimePoint now u))) =
    map id (timePoints (store u)) /\
  (forall n point,
      nth_error (timePoints (store u)) n = Some point ->
      nth_error (timePoints (store (handleAddTimePoint now u))) n =
        Some (if hasId X point
              then {| id := X;
                      time := getCurrentTime (videoRef u);
                      label := JS.orElse (newPointLabel u) "unlabeled" |}
              else point)) /\
  isAdvancedMode (store (handleAddTimePoint now u)) =
    isAdvancedMode (store u) /\
  editingPointId (handleAddTimePoint now u) = None /\
  newPointLabel (handleAddTimePoint now u) = "" /\
  (videoRef u = None -> getCurrentTime (videoRef u) = 0).
Proof.
  intros He. unfold handleAddTimePoint. rewrite He. simpl.
  split; [apply updateTimePoint_ids|].
  split; [|split; [reflexivity|split; [reflexivity|split; [reflexivity|]]]].
  - intros n point Hn.
    rewrite (updateTimePoint_nth X _ _ _ _ Hn). reflexivity.
  - now intros ->.
Qed.

Lemma handleAddTimePoint_editing_witness :
  timePoints
    (store
       (handleAddTimePoint 3000
          {| store :=
               {| timePoints := [examplePoint "1000" 1; examplePoint "2000" 5];
                  isAdvancedMode := false |};
             videoRef := None;
             newPointLabel := "";
             editingPointId := Some "2000" |})) =
    [examplePoint "1000" 1;
     {| id := "2000"; time := 0; label := "unlabeled" |}].
Proof.
  destruct (@handleAddTimePoint_editing 3000
              {| store :=
                   {| timePoints :=
                        [examplePoint "1000" 1; examplePoint "2000" 5];
                      isAdvancedMode := false |};
                 videoRef := None;
                 newPointLabel := "";
                 editingPointId := Some "2000" |} "2000" eq_refl)
    as (_ & _ & _ & _ & _ & _).
  reflexivity.
Defined.

(** X11. When no stored point has the id being edited, the add button
    changes nothing in the store: no point is added and none is updated,
    the typed label is discarded and the editing ends.  This is what
    happens after: edit a point, remove it, press the button. *)
Theorem handleAddTimePoint_stale_edit (now : Z) (u : UI) :
  (forall X,
      isEditing (editingPointId u) = Some X ->
      (forall p, In p (timePoints (store u)) -> id p <> X) ->
      store (handleAddTimePoint now u) = store u /\
      newPointLabel (handleAddTimePoint now u) = "" /\
      editingPointId (handleAddTimePoint now u) = None) /\
  (forall point,
      id point <> "" ->
      store (uiRun u [ClickEdit point; ClickRemove (id point); ClickAdd now])
        = store (uiRun u [ClickRemove (id point)]) /\
      editingPointId
        (uiRun u [ClickEdit point; ClickRemove (id point); ClickAdd now])
        = None).
Proof.
  split.
  - intros X He Ha. unfold handleAddTimePoint. rewrite He. simpl.
    split; [|now split].
    destruct (store u) as [pts mode]. simpl in *. f_equal.
    now apply updateTimePoint_absent.
  - intros point Hx. simpl. unfold handleAddTimePoint. simpl.
    destruct (id point) as [|c i] eqn:E; [now elim Hx|]. simpl.
    split; [|reflexivity].
    f_equal. apply updateTimePoint_absent.
    intros p Hp. apply filter_In in Hp as [_ Hp].
    intros Eq. rewrite Eq, String.eqb_refl in Hp. discriminate Hp.
Qed.

Lemma handleAddTimePoint_stale_edit_witness :
  store
    (handleAddTimePoint 3000
       {| store :=
            {| timePoints := [examplePoint "1000" 1];
               isAdvancedMode := false |};
          videoRef := None;
          newPointLabel := "typed";
          editingPointId := Some "2000" |}) =
    {| timePoints := [examplePoint "1000" 1]; isAdvancedMode := false |} /\
  store
    (uiRun
       {| store :=
            {| timePoints := [examplePoint "1000" 1; examplePoint "2000" 5];
               isAdvancedMode := false |};
          videoRef := None;
          newPointLabel := "";
          editingPointId := None |}
       [ClickEdit (examplePoint "2000" 5); ClickRemove "2000";
        ClickAdd 3000]) =
    {| timePoints := [examplePoint "1000" 1]; isAdvancedMode := false |}.
Proof.
  split.
  - apply (proj1 (handleAddTimePoint_stale_edit 3000
             {| store :=
                  {| timePoints := [examplePoint "1000" 1];
                     isAdvancedMode := false |};
                videoRef := None;
                newPointLabel := "typed";
                editingPointId := Some "2000" |}) "2000" eq_refl).
    intros p [<-|[]]. discriminate.
  - destruct (proj2 (handleAddTimePoint_stale_edit 3000
                {| store :=
                     {| timePoints :=
                          [examplePoint "1000" 1; examplePoint "2000" 5];
                        isAdvancedMode := false |};
                   videoRef := None;
                   newPointLabel := "";
                   editingPointId := None |})
                (examplePoint "2000" 5)) as [E _].
    + discriminate.
    + exact E.
Defined.

(** X17. Pressing edit on a stored point and then the button, without
    typing, keeps the point's label and moves the point to the current
    position of the video: the two clicks amount to one
    [updateTimePoint] with the point's own label and the current time.
    The store is not re-sorted. *)
Theorem edit_then_click_moves_point (now : Z) (u : UI) (point : TimePoint) :
  id point <> "" -> label point <> "" ->
  timePoints (store (uiRun u [ClickEdit point; ClickAdd now])) =
    updateTimePoint (id point) (label point)
      (Some (getCurrentTime (videoRef u))) (timePoints (store u)) /\
  map id (timePoints (store (uiRun u [ClickEdit point; ClickAdd now]))) =
    map id (timePoints (store u)) /\
  editingPointId (uiRun u [ClickEdit point; ClickAdd now]) = None.
Proof.
  intros Hi Hl. simpl. unfold handleAddTimePoint. simpl.
  destruct (id point) as [|c i] eqn:Ei; [now elim Hi|].
  destruct (label point) as [|d l] eqn:El; [now elim Hl|].
  simpl. split; [reflexivity|]. split; [apply updateTimePoint_ids|].
  reflexivity.
Qed.

Lemma edit_then_click_moves_point_witness :
  timePoints
    (store
       (uiRun
          {| store :=
               {| timePoints :=
                    [examplePoint "1000" 1; examplePoint "2000" 5];
                  isAdvancedMode := false |};
             videoRef := Some {| Video.currentTime := 8;
                                 Video.duration := 9;
                                 Video.paused := true |};
             newPointLabel := "";
             editingPointId := None |}
          [ClickEdit (examplePoint "1000" 1); ClickAdd 3000])) =
    [ {| id := "1000"; time := 8; label := "1000" |};
      examplePoint "2000" 5 ].
Proof.
  destruct (@edit_then_click_moves_point 3000
              {| store :=
                   {| timePoints :=
                        [examplePoint "1000" 1; examplePoint "2000" 5];
                      isAdvancedMode := false |};
                 videoRef := Some {| Video.currentTime := 8;
                                     Video.duration := 9;
                                     Video.paused := true |};
                 newPointLabel := "";
                 editingPointId := None |}
              (examplePoint "1000" 1)) as (E & _ & _).
  - discriminate.
  - discriminate.
  - rewrite E. reflexivity.
Defined.

(** ** The key handler *)

(** X14. [handleKeyDown] never removes or edits a stored point, and never
    touches the label being typed or the point being edited.  On a record
    key (the space bar) with a video loaded it adds exactly one point at
    the video's position to the store, in simple as in advanced mode and
    whatever the number of stored points, leaves the store sorted and the
    video as it is; on a record key without a video, and on any other key,
    the store is unchanged. *)
Theorem handleKeyDown_store (e : KeyboardEvent) (now : Z) (u : UI) :
  (isRecordKey e = false ->
   store (handleKeyDown e now u) = store u) /\
  (isRecordKey e = true ->
   forall video,
     videoRef u = Some video ->
     Permutation
       (timePoints (store (handleKeyDown e now u)))
       (newPoint now (Video.currentTime video)
          (JS.natToString (List.length (timePoints (store u)) + 1))
        :: timePoints (store u)) /\
     sortedByTime (timePoints (store (handleKeyDown e now u))) /\
     isAdvancedMode (store (handleKeyDown e now u)) =
       isAdvancedMode (store u)) /\
  (isRecordKey e = true ->
   videoRef u = None ->
   handleKeyDown e now u = u) /\
  (isRecordKey e = true ->
   videoRef (handleKeyDown e now u) = videoRef u) /\
  newPointLabel (handleKeyDown e now u) = newPointLabel u /\
  editingPointId (handleKeyDown e now u) = editingPointId u.
Proof.
  unfold isRecordKey, handleKeyDown.
  destruct (String.eqb (key e) "ArrowLeft"); simpl;
    [repeat split; (reflexivity || discriminate)|].
  destruct (String.eqb (key e) "ArrowRight"); simpl;
    [repeat split; (reflexivity || discriminate)|].
  destruct (String.eqb (key e) " " || String.eqb (code e) "Space");
    simpl; [|repeat split; (reflexivity || discriminate)].
  split; [discriminate|].
  split; [|split; [|repeat split]].
  - intros _ video Hv. rewrite Hv. simpl.
    unfold recordCurrentTime. split; [|split; [apply sortByTime_sorted|]].
    + rewrite sortByTime_perm.
      apply Permutation_sym, Permutation_cons_append.
    + reflexivity.
  - intros _ Hv. rewrite Hv. simpl.
    destruct u as [[pts mode] v l ed]. simpl in *. now subst v.
Qed.

Lemma handleKeyDown_store_witness :
  List.length
    (timePoints
       (store
          (handleKeyDown {| key := " "; code := "Space" |} 3000
             {| store :=
                  {| timePoints :=
                       [examplePoint "1000" 1; examplePoint "2000" 5];
                     isAdvancedMode := false |};
                videoRef := Some {| Video.currentTime := 3;
                                    Video.duration := 9;
                                    Video.paused := true |};
                newPointLabel := "";
                editingPointId := None |}))) = 3%nat /\
  handleKeyDown {| key := " "; code := "Space" |} 3000
    {| store :=
         {| timePoints := [examplePoint "1000" 1; examplePoint "2000" 5];
            isAdvancedMode := false |};
       videoRef := None;
       newPointLabel := "typed";
       editingPointId := Some "1000" |} =
    {| store :=
         {| timePoints := [examplePoint "1000" 1; examplePoint "2000" 5];
            isAdvancedMode := false |};
       videoRef := None;
       newPointLabel := "typed";
       editingPointId := Some "1000" |} /\
  store
    (handleKeyDown {| key := "a"; code := "KeyA" |} 3000
       {| store :=
            {| timePoints := [examplePoint "1000" 1];
               isAdvancedMode := true |};
          videoRef := None;
          newPointLabel := "";
          editingPointId := None |}) =
    {| timePoints := [examplePoint "1000" 1]; isAdvancedMode := true |}.
Proof.
  split; [|split].
  - destruct (handleKeyDown_store {| key := " "; code := "Space" |} 3000
                {| store :=
                     {| timePoints :=
                          [examplePoint "1000" 1; examplePoint "2000" 5];
                        isAdvancedMode := false |};
                   videoRef := Some {| Video.currentTime := 3;
                                       Video.duration := 9;
                                       Video.paused := true |};
                   newPointLabel := "";
                   editingPointId := None |}) as (_ & H & _).
    destruct (H eq_refl _ eq_refl) as (HP & _ & _).
    rewrite (Permutation_length HP). reflexivity.
  - destruct (handleKeyDown_store {| key := " "; code := "Space" |} 3000
                {| store :=
                     {| timePoints :=
                          [examplePoint "1000" 1; examplePoint "2000" 5];
                        isAdvancedMode := false |};
                   videoRef := None;
                   newPointLabel := "typed";
                   editingPointId := Some "1000" |}) as (_ & _ & H & _).
    exact (H eq_refl eq_refl).
  - destruct (handleKeyDown_store {| key := "a"; code := "KeyA" |} 3000
                {| store :=
                     {| timePoints := [examplePoint "1000" 1];
                        isAdvancedMode := true |};
                   videoRef := None;
                   newPointLabel := "";
                   editingPointId := None |}) as (H & _).
    exact (H eq_refl).
Defined.

(** ** Capacity through the components *)

Lemma uiStep_capacity (u : UI) (ev : Event) :
  bypassesCapacity ev = false ->
  isAdvancedMode (store u) = false ->
  (List.length (timePoints (store u)) <= 2)%nat ->
  isAdvancedMode (store (uiStep u ev)) = false /\
  (List.length (timePoints (store (uiStep u ev))) <= 2)%nat.
Proof.
  intros Hb Hm Hl.
  destruct ev as [e now|now|point| |text|i|t|confirmed| | |d|sec|v|t];
    simpl in *; try discriminate Hb; try (split; assumption).
  - unfold isRecordKey in Hb. unfold handleKeyDown.
    destruct (String.eqb (key e) "ArrowLeft"); [now split|].
    destruct (String.eqb (key e) "ArrowRight"); [now split|].
    simpl in Hb. rewrite Hb. now split.
  - unfold handleAddTimePoint.
    destruct (isEditing (editingPointId u)) as [editing|]; simpl.
    + split; [assumption|]. unfold updateTimePoint. now rewrite length_map.
    + split; [assumption|]. rewrite Hm.
      now apply addTimePoint_simple_length.
  - split; [assumption|]. unfold removeTimePoint.
    eapply Nat.le_trans; [apply filter_length_le | assumption].
  - destruct confirmed; simpl; [split; [assumption | lia] | now split].
Qed.

(** X18. Through the components, a store in simple mode never holds more
    than two points unless the space bar is used or the mode is switched:
    after any sequence of other events (add button, typing, edit, cancel,
    remove, reset, jump, seek, play, loading a video) from the initial
    state, at most 2 points are stored and the mode is still simple. *)
Theorem simple_mode_capacity_ui (events : list Event) :
  forallb (fun ev => negb (bypassesCapacity ev)) events = true ->
  isAdvancedMode (store (uiRun initialUI events)) = false /\
  (List.length (timePoints (store (uiRun initialUI events))) <= 2)%nat.
Proof.
  assert (H : forall u,
             forallb (fun ev => negb (bypassesCapacity ev)) events = true ->
             isAdvancedMode (store u) = false ->
             (List.length (timePoints (store u)) <= 2)%nat ->
             isAdvancedMode (store (uiRun u events)) = false /\
             (List.length (timePoints (store (uiRun u events))) <= 2)%nat).
  { induction events as [|ev events IH]; intros u He Hm Hl; [now split|].
    simpl in He. apply andb_true_iff in He as [Hev He].
    apply negb_true_iff in Hev.
    destruct (uiStep_capacity u ev Hev Hm Hl) as [Hm' Hl'].
    simpl. now apply IH. }
  intros He. apply (H initialUI He); [reflexivity | simpl; lia].
Qed.

Lemma simple_mode_capacity_ui_witness :
  Nat.le
    (List.length
       (timePoints
          (store
             (uiRun initialUI
                [LoadVideo {| Video.currentTime := 0; Video.duration := 9;
                              Video.paused := true |};
                 ClickAdd 1000; Playback 4; TypeLabel "peak"; ClickAdd 2000;
                 Playback 6; ClickAdd 3000;
                 KeyDown {| key := "a"; code := "KeyA" |} 4000;
                 ClickSeek 1; ClickAdd 5000]))))
    2.
Proof.
  apply (simple_mode_capacity_ui
           [LoadVideo {| Video.currentTime := 0; Video.duration := 9;
                         Video.paused := true |};
            ClickAdd 1000; Playback 4; TypeLabel "peak"; ClickAdd 2000;
            Playback 6; ClickAdd 3000;
            KeyDown {| key := "a"; code := "KeyA" |} 4000;
            ClickSeek 1; ClickAdd 5000]).
  reflexivity.
Defined.
